(** * Normalisation of recurrence options: [parseoptions.ts]

    A shallow embedding of [initializeOptions] and [parseOptions] and
    the properties of the normalisation pipeline they implement.

    JavaScript numbers are modelled by [Z] (integral values only), a
    [Date] by its time value in milliseconds since the epoch, and the
    options object by a record whose fields hold [undefined], [null] or a
    value of the shape the [Options] interface allows. *)

From Stdlib Require Import ZArith List String Ascii Bool Lia.
From Stdlib Require Import Permutation Sorted DecimalString.
Import ListNotations.

Local Open Scope string_scope.
Local Open Scope list_scope.
Local Open Scope Z_scope.

(** ** JavaScript values *)

(** A field of the options object: [undefined], [null], or a value. *)
Inductive js (A : Type) : Type :=
| undefined
| null
| val (a : A).

Arguments undefined {A}.
Arguments null {A}.
Arguments val {A} a.

(** [number | number[]] *)
Inductive NumOrArr : Type :=
| Num (x : Z)
| Arr (l : list Z).

Module Weekday.
(** Modelled from the spec: weekday.ts is not among the sources.  A
    [Weekday] carries a weekday code (0 = Monday .. 6 = Sunday) and an
    optional ordinal [n]. *)
Record t : Type := mk { weekday : Z; n : option Z }.

(** An ordinal, when given, is a position such as 2 or -1; it is not 0. *)
Definition wf (w : t) : Prop := n w <> Some 0.
End Weekday.

(** [Weekday | number], the element type of a [byweekday] array. *)
Inductive ByWeekday : Type :=
| WdNum (x : Z)
| WdObj (w : Weekday.t).

(** [ByWeekday | ByWeekday[]] *)
Inductive ByWeekdayField : Type :=
| BwNum (x : Z)
| BwObj (w : Weekday.t)
| BwArr (l : list ByWeekday).

(** The [Options] interface ([ParsedOptions] after normalisation; the
    source mutates one object in place, so one record type serves both). *)
Record Options : Type := {
  freq : js Z;
  dtstart : js Z;
  interval : js Z;
  wkst : js ByWeekday;
  count : js Z;
  until : js Z;
  tzid : js string;
  bysetpos : js NumOrArr;
  bymonth : js NumOrArr;
  bymonthday : js NumOrArr;
  bynmonthday : js (list Z);
  byyearday : js NumOrArr;
  byweekno : js NumOrArr;
  byweekday : js ByWeekdayField;
  bynweekday : js (list (list Z));
  byhour : js NumOrArr;
  byminute : js NumOrArr;
  bysecond : js NumOrArr;
  byeaster : js Z
}.

(** Field assignment [opts.key = v]. *)
Definition set_freq (v : js Z) (o : Options) : Options :=
  {| freq := v; dtstart := dtstart o; interval := interval o; wkst := wkst o;
     count := count o; until := until o; tzid := tzid o;
     bysetpos := bysetpos o; bymonth := bymonth o;
     bymonthday := bymonthday o; bynmonthday := bynmonthday o;
     byyearday := byyearday o; byweekno := byweekno o;
     byweekday := byweekday o; bynweekday := bynweekday o;
     byhour := byhour o; byminute := byminute o; bysecond := bysecond o;
     byeaster := byeaster o |}.

Definition set_dtstart (v : js Z) (o : Options) : Options :=
  {| freq := freq o; dtstart := v; interval := interval o; wkst := wkst o;
     count := count o; until := until o; tzid := tzid o;
     bysetpos := bysetpos o; bymonth := bymonth o;
     bymonthday := bymonthday o; bynmonthday := bynmonthday o;
     byyearday := byyearday o; byweekno := byweekno o;
     byweekday := byweekday o; bynweekday := bynweekday o;
     byhour := byhour o; byminute := byminute o; bysecond := bysecond o;
     byeaster := byeaster o |}.

Definition set_wkst (v : js ByWeekday) (o : Options) : Options :=
  {| freq := freq o; dtstart := dtstart o; interval := interval o; wkst := v;
     count := count o; until := until o; tzid := tzid o;
     bysetpos := bysetpos o; bymonth := bymonth o;
     bymonthday := bymonthday o; bynmonthday := bynmonthday o;
     byyearday := byyearday o; byweekno := byweekno o;
     byweekday := byweekday o; bynweekday := bynweekday o;
     byhour := byhour o; byminute := byminute o; bysecond := bysecond o;
     byeaster := byeaster o |}.

Definition set_bysetpos (v : js NumOrArr) (o : Options) : Options :=
  {| freq := freq o; dtstart := dtstart o; interval := interval o;
     wkst := wkst o; count := count o; until := until o; tzid := tzid o;
     bysetpos := v; bymonth := bymonth o; bymonthday := bymonthday o;
     bynmonthday := bynmonthday o; byyearday := byyearday o;
     byweekno := byweekno o; byweekday := byweekday o;
     bynweekday := bynweekday o; byhour := byhour o; byminute := byminute o;
     bysecond := bysecond o; byeaster := byeaster o |}.

Definition set_bymonth (v : js NumOrArr) (o : Options) : Options :=
  {| freq := freq o; dtstart := dtstart o; interval := interval o;
     wkst := wkst o; count := count o; until := until o; tzid := tzid o;
     bysetpos := bysetpos o; bymonth := v; bymonthday := bymonthday o;
     bynmonthday := bynmonthday o; byyearday := byyearday o;
     byweekno := byweekno o; byweekday := byweekday o;
     bynweekday := bynweekday o; byhour := byhour o; byminute := byminute o;
     bysecond := bysecond o; byeaster := byeaster o |}.

Definition set_bymonthday (v : js NumOrArr) (o : Options) : Options :=
  {| freq := freq o; dtstart := dtstart o; interval := interval o;
     wkst := wkst o; count := count o; until := until o; tzid := tzid o;
     bysetpos := bysetpos o; bymonth := bymonth o; bymonthday := v;
     bynmonthday := bynmonthday o; byyearday := byyearday o;
     byweekno := byweekno o; byweekday := byweekday o;
     bynweekday := bynweekday o; byhour := byhour o; byminute := byminute o;
     bysecond := bysecond o; byeaster := byeaster o |}.

Definition set_bynmonthday (v : js (list Z)) (o : Options) : Options :=
  {| freq := freq o; dtstart := dtstart o; interval := interval o;
     wkst := wkst o; count := count o; until := until o; tzid := tzid o;
     bysetpos := bysetpos o; bymonth := bymonth o;
     bymonthday := bymonthday o; bynmonthday := v; byyearday := byyearday o;
     byweekno := byweekno o; byweekday := byweekday o;
     bynweekday := bynweekday o; byhour := byhour o; byminute := byminute o;
     bysecond := bysecond o; byeaster := byeaster o |}.

Definition set_byyearday (v : js NumOrArr) (o : Options) : Options :=
  {| freq := freq o; dtstart := dtstart o; interval := interval o;
     wkst := wkst o; count := count o; until := until o; tzid := tzid o;
     bysetpos := bysetpos o; bymonth := bymonth o;
     bymonthday := bymonthday o; bynmonthday := bynmonthday o;
     byyearday := v; byweekno := byweekno o; byweekday := byweekday o;
     bynweekday := bynweekday o; byhour := byhour o; byminute := byminute o;
     bysecond := bysecond o; byeaster := byeaster o |}.

Definition set_byweekno (v : js NumOrArr) (o : Options) : Options :=
  {| freq := freq o; dtstart := dtstart o; interval := interval o;
     wkst := wkst o; count := count o; until := until o; tzid := tzid o;
     bysetpos := bysetpos o; bymonth := bymonth o;
     bymonthday := bymonthday o; bynmonthday := bynmonthday o;
     byyearday := byyearday o; byweekno := v; byweekday := byweekday o;
     bynweekday := bynweekday o; byhour := byhour o; byminute := byminute o;
     bysecond := bysecond o; byeaster := byeaster o |}.

Definition set_byweekday (v : js ByWeekdayField) (o : Options) : Options :=
  {| freq := freq o; dtstart := dtstart o; interval := interval o;
     wkst := wkst o; count := count o; until := until o; tzid := tzid o;
     bysetpos := bysetpos o; bymonth := bymonth o;
     bymonthday := bymonthday o; bynmonthday := bynmonthday o;
     byyearday := byyearday o; byweekno := byweekno o; byweekday := v;
     bynweekday := bynweekday o; byhour := byhour o; byminute := byminute o;
     bysecond := bysecond o; byeaster := byeaster o |}.

Definition set_bynweekday (v : js (list (list Z))) (o : Options) : Options :=
  {| freq := freq o; dtstart := dtstart o; interval := interval o;
     wkst := wkst o; count := count o; until := until o; tzid := tzid o;
     bysetpos := bysetpos o; bymonth := bymonth o;
     bymonthday := bymonthday o; bynmonthday := bynmonthday o;
     byyearday := byyearday o; byweekno := byweekno o;
     byweekday := byweekday o; bynweekday := v; byhour := byhour o;
     byminute := byminute o; bysecond := bysecond o;
     byeaster := byeaster o |}.

Definition set_byhour (v : js NumOrArr) (o : Options) : Options :=
  {| freq := freq o; dtstart := dtstart o; interval := interval o;
     wkst := wkst o; count := count o; until := until o; tzid := tzid o;
     bysetpos := bysetpos o; bymonth := bymonth o;
     bymonthday := bymonthday o; bynmonthday := bynmonthday o;
     byyearday := byyearday o; byweekno := byweekno o;
     byweekday := byweekday o; bynweekday := bynweekday o; byhour := v;
     byminute := byminute o; bysecond := bysecond o;
     byeaster := byeaster o |}.

Definition set_byminute (v : js NumOrArr) (o : Options) : Options :=
  {| freq := freq o; dtstart := dtstart o; interval := interval o;
     wkst := wkst o; count := count o; until := until o; tzid := tzid o;
     bysetpos := bysetpos o; bymonth := bymonth o;
     bymonthday := bymonthday o; bynmonthday := bynmonthday o;
     byyearday := byyearday o; byweekno := byweekno o;
     byweekday := byweekday o; bynweekday := bynweekday o;
     byhour := byhour o; byminute := v; bysecond := bysecond o;
     byeaster := byeaster o |}.

Definition set_bysecond (v : js NumOrArr) (o : Options) : Options :=
  {| freq := freq o; dtstart := dtstart o; interval := interval o;
     wkst := wkst o; count := count o; until := until o; tzid := tzid o;
     bysetpos := bysetpos o; bymonth := bymonth o;
     bymonthday := bymonthday o; bynmonthday := bynmonthday o;
     byyearday := byyearday o; byweekno := byweekno o;
     byweekday := byweekday o; bynweekday := bynweekday o;
     byhour := byhour o; byminute := byminute o; bysecond := v;
     byeaster := byeaster o |}.

(** The argument of [parseOptions]: an object with its own enumerable keys
    in enumeration order ([Object.keys]) and the value [options[key]] of
    every recognised key.  A key that is not an own key is never read. *)
Record RawOptions : Type := {
  keys : list string;
  fields : Options
}.

(** A thrown [Error] carries its message. *)
Inductive result (A : Type) : Type :=
| Return (a : A)
| Throw (message : string).

Arguments Return {A} a.
Arguments Throw {A} message.

(** ** The [Date] built-ins and [dateutil]

    A [Date] is its time value [t]; the UTC getters are those of
    ECMAScript (floor division on the proleptic Gregorian calendar). *)
Module Date.
Definition msPerDay : Z := 86400000.
Definition Day (t : Z) : Z := t / msPerDay.

Definition getTime (t : Z) : Z := t.
Definition getUTCHours (t : Z) : Z := (t / 3600000) mod 24.
Definition getUTCMinutes (t : Z) : Z := (t / 60000) mod 60.
Definition getUTCSeconds (t : Z) : Z := (t / 1000) mod 60.
Definition getUTCMilliseconds (t : Z) : Z := t mod 1000.
Definition getUTCDay (t : Z) : Z := (Day t + 4) mod 7.

(** Day of the 400-year era, year of the era, and day of the year
    counted from 1 March. *)
Definition doe (t : Z) : Z := (Day t + 719468) mod 146097.
Definition yoe (t : Z) : Z :=
  (doe t - doe t / 1460 + doe t / 36524 - doe t / 146096) / 365.
Definition doy (t : Z) : Z :=
  doe t - (365 * yoe t + yoe t / 4 - yoe t / 100).
Definition mp (t : Z) : Z := (5 * doy t + 2) / 153.

(** Month 0..11 and day of the month 1..31. *)
Definition getUTCMonth (t : Z) : Z :=
  if mp t <? 10 then mp t + 2 else mp t - 10.
Definition getUTCDate (t : Z) : Z := doy t - (153 * mp t + 2) / 5 + 1.

(** [new Date(new Date().setMilliseconds(0))] at clock reading [now]. *)
Definition setMilliseconds0 (now : Z) : Z := now - now mod 1000.
End Date.

Module dateutil.
(** Modelled from the spec: dateutil.ts is not among the sources.
    [Time] is the (hour, minute, second, millisecond) tuple. *)
Record Time : Type := mkTime {
  hour : Z; minute : Z; second : Z; millisecond : Z
}.

(** Modelled from the spec: dateutil.ts is not among the sources.  The
    weekday code of a date, 0 = Monday .. 6 = Sunday. *)
Definition getWeekday (t : Z) : Z :=
  nth (Z.to_nat (Date.getUTCDay t)) [6; 0; 1; 2; 3; 4; 5] 0.

(** Modelled from the spec: dateutil.ts is not among the sources.  The
    order of [sort]: ascending by (hour, minute, second, millisecond). *)
Definition leb (a b : Time) : bool :=
  (hour a <? hour b) ||
  ((hour a =? hour b) &&
   ((minute a <? minute b) ||
    ((minute a =? minute b) &&
     ((second a <? second b) ||
      ((second a =? second b) && (millisecond a <=? millisecond b)))))).

Definition le (a b : Time) : Prop := leb a b = true.

(** Insertion into a sorted list, the step of [sort]. *)
Fixpoint insert (x : Time) (l : list Time) : list Time :=
  match l with
  | [] => [x]
  | y :: l' => if leb x y then x :: l else y :: insert x l'
  end.

(** Modelled from the spec: dateutil.ts is not among the sources.
    [sort] orders a list of times ascending by (hour, minute, second,
    millisecond); times that agree on all four are equal, so the result
    does not depend on the algorithm. *)
Definition sort (l : list Time) : list Time := fold_right insert [] l.
End dateutil.

(** ** [helpers] and the constants of [RRule] *)

(** Modelled from the spec: helpers.ts is not among the sources.
    [isPresent(v)] is [v !== null && v !== undefined]. *)
Definition isPresent {A : Type} (v : js A) : bool :=
  match v with
  | val _ => true
  | _ => false
  end.

(** Modelled from the spec: helpers.ts is not among the sources.
    [notEmpty(obj)] is [isPresent(obj) && obj.length !== 0]; a number has
    no [length], so a scalar passed through the [as number[]] cast is not
    empty. *)
Definition notEmpty (v : js NumOrArr) : bool :=
  match v with
  | val (Arr []) => false
  | val _ => true
  | _ => false
  end.

(** The built-in [Boolean(v)]: [undefined], [null] and 0 are falsy, every
    array (the empty one too) is truthy. *)
Definition Boolean (v : js NumOrArr) : bool :=
  match v with
  | val (Num x) => negb (x =? 0)
  | val (Arr _) => true
  | _ => false
  end.

(** Modelled from the spec: helpers.ts is not among the sources.
    [contains(arr, v)]: [v] occurs in [arr]. *)
Definition contains (arr : list string) (v : string) : bool :=
  existsb (String.eqb v) arr.

Module RRule.
(** Modelled from the spec: rrule.ts is not among the sources.  The
    frequencies are the ordered enum YEARLY < ... < SECONDLY, numbered
    from 0, and [FREQUENCIES] holds their names in that order. *)
Definition YEARLY : Z := 0.
Definition MONTHLY : Z := 1.
Definition WEEKLY : Z := 2.
Definition DAILY : Z := 3.
Definition HOURLY : Z := 4.
Definition MINUTELY : Z := 5.
Definition SECONDLY : Z := 6.

Definition FREQUENCIES : list string :=
  ["YEARLY"; "MONTHLY"; "WEEKLY"; "DAILY"; "HOURLY"; "MINUTELY";
   "SECONDLY"].

(** Modelled from the spec: rrule.ts is not among the sources.  Monday,
    the weekday with code 0 and no ordinal. *)
Definition MO : Weekday.t := Weekday.mk 0 None.
End RRule.

(** Modelled from the spec: rrule.ts is not among the sources.
    [defaultKeys] is [Object.keys(DEFAULT_OPTIONS)], the keys of the
    [Options] interface. *)
Definition defaultKeys : list string :=
  ["freq"; "dtstart"; "interval"; "wkst"; "count"; "until"; "tzid";
   "bysetpos"; "bymonth"; "bymonthday"; "bynmonthday"; "byyearday";
   "byweekno"; "byweekday"; "bynweekday"; "byhour"; "byminute"; "bysecond";
   "byeaster"].

(** ** [initializeOptions] *)

(** [options[key]] for an own key; a key that was not copied reads as
    [undefined]. *)
Definition own {A : Type} (ks : list string) (key : string) (v : js A)
  : js A :=
  if contains ks key then v else undefined.

(** The shallow copy built by the [forEach] of [initializeOptions]. *)
Definition copyOptions (options : RawOptions) : Options :=
  let ks := keys options in
  let o := fields options in
  {| freq := own ks "freq" (freq o);
     dtstart := own ks "dtstart" (dtstart o);
     interval := own ks "interval" (interval o);
     wkst := own ks "wkst" (wkst o);
     count := own ks "count" (count o);
     until := own ks "until" (until o);
     tzid := own ks "tzid" (tzid o);
     bysetpos := own ks "bysetpos" (bysetpos o);
     bymonth := own ks "bymonth" (bymonth o);
     bymonthday := own ks "bymonthday" (bymonthday o);
     bynmonthday := own ks "bynmonthday" (bynmonthday o);
     byyearday := own ks "byyearday" (byyearday o);
     byweekno := own ks "byweekno" (byweekno o);
     byweekday := own ks "byweekday" (byweekday o);
     bynweekday := own ks "bynweekday" (bynweekday o);
     byhour := own ks "byhour" (byhour o);
     byminute := own ks "byminute" (byminute o);
     bysecond := own ks "bysecond" (bysecond o);
     byeaster := own ks "byeaster" (byeaster o) |}.

(** The keys pushed on [invalid], in the order of [Object.keys]. *)
Definition invalidKeys (options : RawOptions) : list string :=
  filter (fun key => negb (contains defaultKeys key)) (keys options).

Definition initializeOptions (options : RawOptions) : result Options :=
  match invalidKeys options with
  | [] => Return (copyOptions options)
  | invalid => Throw ("Invalid options: " ++ String.concat ", " invalid)
  end.

(** ** The stages of [parseOptions] *)

(** [`${opts.freq}`] *)
Definition toString (v : js Z) : string :=
  match v with
  | undefined => "undefined"
  | null => "null"
  | val x => NilZero.string_of_int (Z.to_int x)
  end.

(** [isPresent(opts.freq) && RRule.FREQUENCIES[opts.freq]]: the number
    indexes the array and the entry found there is a non-empty string. *)
Definition validFrequency (v : js Z) : option Z :=
  match v with
  | val f =>
      if f <? 0 then None
      else match nth_error RRule.FREQUENCIES (Z.to_nat f) with
           | Some s => if String.eqb s "" then None else Some f
           | None => None
           end
  | _ => None
  end.

(** [opts.wkst], lines 43-49. *)
Definition resolveWkst (opts : Options) : Options :=
  match wkst opts with
  | val (WdNum _) => opts
  | val (WdObj w) => set_wkst (val (WdNum (Weekday.weekday w))) opts
  | _ => set_wkst (val (WdNum (Weekday.weekday RRule.MO))) opts
  end.

Definition setposMessage : string :=
  "bysetpos must be between 1 and 366," ++ " or between -366 and -1".

(** [v === 0 || !(v >= -366 && v <= 366)] *)
Definition badSetpos (v : Z) : bool :=
  (v =? 0) || negb ((-366 <=? v) && (v <=? 366)).

(** The [for] loop of lines 54-61. *)
Fixpoint checkSetpos (l : list Z) : result unit :=
  match l with
  | [] => Return tt
  | v :: l' => if badSetpos v then Throw setposMessage else checkSetpos l'
  end.

(** [opts.bysetpos], lines 51-62. *)
Definition resolveSetpos (opts : Options) : result Options :=
  match bysetpos opts with
  | val (Num x) =>
      match checkSetpos [x] with
      | Return _ => Return (set_bysetpos (val (Arr [x])) opts)
      | Throw e => Throw e
      end
  | val (Arr l) =>
      match checkSetpos l with
      | Return _ => Return opts
      | Throw e => Throw e
      end
  | _ => Return opts
  end.

(** [v !== null] *)
Definition notNull {A : Type} (v : js A) : bool :=
  match v with
  | null => false
  | _ => true
  end.

(** The condition of lines 64-74. *)
Definition noPositional (opts : Options) : bool :=
  negb (Boolean (byweekno opts) ||
        notEmpty (byweekno opts) ||
        notEmpty (byyearday opts) ||
        Boolean (bymonthday opts) ||
        notEmpty (bymonthday opts) ||
        notNull (byweekday opts) ||
        notNull (byeaster opts)).

(** The [switch] of lines 75-86, for frequency [f] and start [t]. *)
Definition deriveFromStart (f t : Z) (opts : Options) : Options :=
  if f =? RRule.YEARLY then
    let opts :=
      if negb (Boolean (bymonth opts))
      then set_bymonth (val (Num (Date.getUTCMonth t + 1))) opts
      else opts in
    set_bymonthday (val (Num (Date.getUTCDate t))) opts
  else if f =? RRule.MONTHLY then
    set_bymonthday (val (Num (Date.getUTCDate t))) opts
  else if f =? RRule.WEEKLY then
    set_byweekday (val (BwArr [WdNum (dateutil.getWeekday t)])) opts
  else opts.

(** Lines 64-87. *)
Definition implicit (f t : Z) (opts : Options) : Options :=
  if noPositional opts then deriveFromStart f t opts else opts.

(** [if (isPresent(v) && !isArray(v)) v = [v]], lines 90-96 and 125-127. *)
Definition toArray (v : js NumOrArr) : js NumOrArr :=
  match v with
  | val (Num x) => val (Arr [x])
  | _ => v
  end.

(** The loop of lines 106-113 with its two accumulators. *)
Definition splitMonthday (l : list Z) : list Z * list Z :=
  fold_left
    (fun acc v =>
       if v >? 0 then (fst acc ++ [v], snd acc)
       else if v <? 0 then (fst acc, snd acc ++ [v])
       else acc)
    l ([], []).

(** [opts.bymonthday] and [opts.bynmonthday], lines 99-122. *)
Definition normalizeMonthday (opts : Options) : Options :=
  match bymonthday opts with
  | val (Arr l) =>
      let s := splitMonthday l in
      set_bynmonthday (val (snd s)) (set_bymonthday (val (Arr (fst s))) opts)
  | val (Num x) =>
      if x <? 0
      then set_bymonthday (val (Arr [])) (set_bynmonthday (val [x]) opts)
      else set_bymonthday (val (Arr [x])) (set_bynmonthday (val []) opts)
  | _ => set_bynmonthday (val []) (set_bymonthday (val (Arr [])) opts)
  end.

(** The test [!wd.n || opts.freq > RRule.MONTHLY] and what is pushed:
    the bare code on the plain list, or [[wd.weekday, wd.n]] on the
    ordinal list. *)
Definition classifyWeekday (f : Z) (w : Weekday.t) : Z + list Z :=
  match Weekday.n w with
  | None => inl (Weekday.weekday w)
  | Some k =>
      if (k =? 0) || (f >? RRule.MONTHLY) then inl (Weekday.weekday w)
      else inr [Weekday.weekday w; k]
  end.

(** The loop of lines 147-161 with its two accumulators. *)
Definition splitWeekday (f : Z) (l : list ByWeekday)
  : list Z * list (list Z) :=
  fold_left
    (fun acc wday =>
       match wday with
       | WdNum x => (fst acc ++ [x], snd acc)
       | WdObj wd =>
           match classifyWeekday f wd with
           | inl c => (fst acc ++ [c], snd acc)
           | inr p => (fst acc, snd acc ++ [p])
           end
       end)
    l ([], []).

(** A list of bare codes stored back in [opts.byweekday]. *)
Definition plainCodes (l : list Z) : js ByWeekdayField :=
  val (BwArr (map WdNum l)).

(** [notEmpty(l) ? l : null] *)
Definition orNull {A B : Type} (l : list A) (v : js B) : js B :=
  match l with
  | [] => null
  | _ => v
  end.

(** [opts.byweekday] and [opts.bynweekday], lines 130-164. *)
Definition normalizeWeekday (f : Z) (opts : Options) : Options :=
  match byweekday opts with
  | val (BwNum x) => set_bynweekday null (set_byweekday (plainCodes [x]) opts)
  | val (BwObj w) =>
      match classifyWeekday f w with
      | inl c => set_bynweekday null (set_byweekday (plainCodes [c]) opts)
      | inr p => set_byweekday null (set_bynweekday (val [p]) opts)
      end
  | val (BwArr l) =>
      let s := splitWeekday f l in
      set_bynweekday (orNull (snd s) (val (snd s)))
        (set_byweekday (orNull (fst s) (plainCodes (fst s))) opts)
  | _ => set_bynweekday null opts
  end.

(** [opts.byhour], [opts.byminute], [opts.bysecond], lines 167-187: the
    default applies when the frequency is below [level]. *)
Definition normalizeTime (f level start : Z) (v : js NumOrArr)
  : js NumOrArr :=
  match v with
  | val (Num x) => val (Arr [x])
  | val (Arr l) => v
  | _ => if f <? level then val (Arr [start]) else null
  end.

(** The three nested loops of lines 194-208. *)
Definition pushTimes (hours minutes seconds : list Z) (ms : Z)
  : list dateutil.Time :=
  fold_left
    (fun ts h =>
       fold_left
         (fun ts m =>
            fold_left
              (fun ts s => ts ++ [dateutil.mkTime h m s ms])
              seconds ts)
         minutes ts)
    hours [].

Definition typeError : string :=
  "TypeError: Cannot read properties of null (reading 'length')".

(** Lines 189-210; reading [length] of a [null] list throws. *)
Definition buildTimeset (f ms : Z) (opts : Options)
  : result (option (list dateutil.Time)) :=
  if f >=? RRule.HOURLY then Return None
  else
    match byhour opts, byminute opts, bysecond opts with
    | val (Arr hs), val (Arr mins), val (Arr ss) =>
        Return (Some (dateutil.sort (pushTimes hs mins ss ms)))
    | _, _, _ => Throw typeError
    end.

(** [opts.dtstart.getTime() % 1000]; [%] is the remainder that takes the
    sign of the dividend. *)
Definition millisecondModulo (t : Z) : Z := Z.rem (Date.getTime t) 1000.

(** Lines 89-187. *)
Definition normalizeFields (f t : Z) (opts : Options) : Options :=
  let opts := set_bymonth (toArray (bymonth opts)) opts in
  let opts := set_byyearday (toArray (byyearday opts)) opts in
  let opts := normalizeMonthday opts in
  let opts := set_byweekno (toArray (byweekno opts)) opts in
  let opts := normalizeWeekday f opts in
  let opts :=
    set_byhour
      (normalizeTime f RRule.HOURLY (Date.getUTCHours t) (byhour opts))
      opts in
  let opts :=
    set_byminute
      (normalizeTime f RRule.MINUTELY (Date.getUTCMinutes t) (byminute opts))
      opts in
  set_bysecond
    (normalizeTime f RRule.SECONDLY (Date.getUTCSeconds t) (bysecond opts))
    opts.

Section ParseOptions.

(** The table [DEFAULT_OPTIONS] of rrule.ts, which is not among the
    sources: the development holds for any table. *)
Variable DEFAULT_OPTIONS : Options.

(** [if (!contains(keys, key)) opts[key] = DEFAULT_OPTIONS[key]] *)
Definition dflt {A : Type} (ks : list string) (key : string)
  (v d : js A) : js A :=
  if negb (contains ks key) then d else v.

(** The [forEach] over [defaultKeys], lines 30-32. *)
Definition mergeDefaults (ks : list string) (o : Options) : Options :=
  let d := DEFAULT_OPTIONS in
  {| freq := dflt ks "freq" (freq o) (freq d);
     dtstart := dflt ks "dtstart" (dtstart o) (dtstart d);
     interval := dflt ks "interval" (interval o) (interval d);
     wkst := dflt ks "wkst" (wkst o) (wkst d);
     count := dflt ks "count" (count o) (count d);
     until := dflt ks "until" (until o) (until d);
     tzid := dflt ks "tzid" (tzid o) (tzid d);
     bysetpos := dflt ks "bysetpos" (bysetpos o) (bysetpos d);
     bymonth := dflt ks "bymonth" (bymonth o) (bymonth d);
     bymonthday := dflt ks "bymonthday" (bymonthday o) (bymonthday d);
     bynmonthday := dflt ks "bynmonthday" (bynmonthday o) (bynmonthday d);
     byyearday := dflt ks "byyearday" (byyearday o) (byyearday d);
     byweekno := dflt ks "byweekno" (byweekno o) (byweekno d);
     byweekday := dflt ks "byweekday" (byweekday o) (byweekday d);
     bynweekday := dflt ks "bynweekday" (bynweekday o) (bynweekday d);
     byhour := dflt ks "byhour" (byhour o) (byhour d);
     byminute := dflt ks "byminute" (byminute o) (byminute d);
     bysecond := dflt ks "bysecond" (bysecond o) (bysecond d);
     byeaster := dflt ks "byeaster" (byeaster o) (byeaster d) |}.

(** The options after the merge, lines 26-32. *)
Definition merged (options : RawOptions) : Options :=
  mergeDefaults (keys options) (copyOptions options).

(** Line 34. *)
Definition easterOverride (opts : Options) : Options :=
  if isPresent (byeaster opts) then set_freq (val RRule.YEARLY) opts
  else opts.

(** Line 40: the start instant, defaulted from the clock reading. *)
Definition startOf (now : Z) (opts : Options) : Z :=
  match dtstart opts with
  | val t => t
  | _ => Date.setMilliseconds0 now
  end.

(** The working object when the implicit derivation is reached (lines
    26-62), with the validated frequency and the start instant. *)
Definition anchored (now : Z) (options : RawOptions)
  : result (Z * Z * Options) :=
  match initializeOptions options with
  | Throw e => Throw e
  | Return opts =>
      let opts := mergeDefaults (keys options) opts in
      let opts := easterOverride opts in
      match validFrequency (freq opts) with
      | None => Throw ("Invalid frequency: " ++ toString (freq opts))
      | Some f =>
          let t := startOf now opts in
          let opts := set_dtstart (val t) opts in
          let opts := resolveWkst opts in
          match resolveSetpos opts with
          | Throw e => Throw e
          | Return opts => Return (f, t, opts)
          end
      end
  end.

Definition parseOptions (now : Z) (options : RawOptions)
  : result (Options * option (list dateutil.Time)) :=
  match anchored now options with
  | Throw e => Throw e
  | Return (f, t, opts) =>
      let opts := implicit f t opts in
      let opts := normalizeFields f t opts in
      match buildTimeset f (millisecondModulo t) opts with
      | Throw e => Throw e
      | Return timeset => Return (opts, timeset)
      end
  end.

End ParseOptions.

(** ** Vocabulary of the specification *)

(** The fields of the empty object literal: every [options[key]] reads as
    [undefined]. *)
Definition blank : Options :=
  {| freq := undefined; dtstart := undefined; interval := undefined;
     wkst := undefined; count := undefined; until := undefined;
     tzid := undefined; bysetpos := undefined; bymonth := undefined;
     bymonthday := undefined; bynmonthday := undefined;
     byyearday := undefined; byweekno := undefined; byweekday := undefined;
     bynweekday := undefined; byhour := undefined; byminute := undefined;
     bysecond := undefined; byeaster := undefined |}.

(** Modelled from the spec: rrule.ts is not among the sources.  The
    documented defaults: interval 1, week start Monday, the null marker
    for every other field; the default frequency, which the spec leaves
    open, is the argument [f]. *)
Definition documentedDefaults (f : js Z) : Options :=
  {| freq := f; dtstart := null; interval := val 1;
     wkst := val (WdObj RRule.MO); count := null; until := null;
     tzid := null; bysetpos := null; bymonth := null;
     bymonthday := null; bynmonthday := null;
     byyearday := null; byweekno := null; byweekday := null;
     bynweekday := null; byhour := null; byminute := null;
     bysecond := null; byeaster := null |}.

(** The three error kinds, told apart by the message of the [Error]. *)
Definition InvalidOptionKey (m : string) : Prop :=
  exists s, m = ("Invalid options: " ++ s)%string.

Definition InvalidFrequency (m : string) : Prop :=
  exists s, m = ("Invalid frequency: " ++ s)%string.

Definition InvalidSetPosition (m : string) : Prop := m = setposMessage.

(** [k] occurs in the text [m]. *)
Definition occursIn (k m : string) : Prop :=
  exists pre post, m = (pre ++ k ++ post)%string.

(** A member of the frequency enum. *)
Definition isFrequency (v : js Z) : Prop :=
  exists f, v = val f /\
    In f [RRule.YEARLY; RRule.MONTHLY; RRule.WEEKLY; RRule.DAILY;
          RRule.HOURLY; RRule.MINUTELY; RRule.SECONDLY].

(** The elements of a supplied set-position constraint, a scalar counting
    as a one-element list. *)
Definition setposElements (v : js NumOrArr) : option (list Z) :=
  match v with
  | val (Num x) => Some [x]
  | val (Arr l) => Some l
  | _ => None
  end.

(** A scalar set-position constraint promoted to a one-element list. *)
Definition promoteSetpos (o : Options) : Options :=
  match bysetpos o with
  | val (Num x) => set_bysetpos (val (Arr [x])) o
  | _ => o
  end.

(** The rule every set-position element must satisfy. *)
Definition legalSetpos (v : Z) : Prop := v <> 0 /\ -366 <= v <= 366.

(** The constraints that switch the implicit derivation off: a
    week-number, month-day, weekday or Easter-offset constraint that is
    present, or a year-day constraint that is present and not an empty
    list. *)
Definition positionalPresent (o : Options) : bool :=
  isPresent (byweekno o) || notEmpty (byyearday o) ||
  isPresent (bymonthday o) || isPresent (byweekday o) ||
  isPresent (byeaster o).

(** The month constraint is absent, or the number 0. *)
Definition monthAbsentOrZero (v : js NumOrArr) : bool :=
  match v with
  | val (Num x) => x =? 0
  | val (Arr _) => false
  | _ => true
  end.

(** What the implicit derivation sets, by frequency. *)
Definition derived (f t : Z) (o : Options) : Options :=
  if f =? RRule.YEARLY then
    set_bymonthday (val (Num (Date.getUTCDate t)))
      (if monthAbsentOrZero (bymonth o)
       then set_bymonth (val (Num (Date.getUTCMonth t + 1))) o
       else o)
  else if f =? RRule.MONTHLY then
    set_bymonthday (val (Num (Date.getUTCDate t))) o
  else if f =? RRule.WEEKLY then
    set_byweekday (val (BwArr [WdNum (dateutil.getWeekday t)])) o
  else o.

(** The positive and the negative month-day bucket. *)
Definition monthdayBuckets (v : js NumOrArr) : list Z * list Z :=
  match v with
  | val (Arr l) => (filter (fun x => 0 <? x) l, filter (fun x => x <? 0) l)
  | val (Num x) => if x <? 0 then ([], [x]) else ([x], [])
  | _ => ([], [])
  end.

(** Frequencies strictly finer than MONTHLY. *)
Definition finerThanMonthly (f : Z) : bool :=
  existsb (Z.eqb f)
    [RRule.WEEKLY; RRule.DAILY; RRule.HOURLY; RRule.MINUTELY;
     RRule.SECONDLY].

(** The bare code a weekday token contributes to the plain bucket, if
    any: a bare code always, a [Weekday] when it has no ordinal or the
    frequency is finer than MONTHLY. *)
Definition plainOf (f : Z) (x : ByWeekday) : option Z :=
  match x with
  | WdNum c => Some c
  | WdObj w =>
      match Weekday.n w with
      | None => Some (Weekday.weekday w)
      | Some _ =>
          if finerThanMonthly f then Some (Weekday.weekday w) else None
      end
  end.

(** The pair a weekday token contributes to the ordinal bucket, if any:
    a [Weekday] with an ordinal under YEARLY or MONTHLY. *)
Definition ordinalOf (f : Z) (x : ByWeekday) : option (list Z) :=
  match x with
  | WdNum _ => None
  | WdObj w =>
      match Weekday.n w with
      | None => None
      | Some k =>
          if finerThanMonthly f then None else Some [Weekday.weekday w; k]
      end
  end.

Fixpoint filterMap {A B : Type} (g : A -> option B) (l : list A) : list B :=
  match l with
  | [] => []
  | x :: l' =>
      match g x with
      | Some y => y :: filterMap g l'
      | None => filterMap g l'
      end
  end.

(** A bucket is [null] when it ends up empty. *)
Definition plainBucket (l : list Z) : js ByWeekdayField :=
  match l with
  | [] => null
  | _ => val (BwArr (map WdNum l))
  end.

Definition ordinalBucket (l : list (list Z)) : js (list (list Z)) :=
  match l with
  | [] => null
  | _ => val l
  end.

(** Every [Weekday] of a weekday constraint is well formed. *)
Definition weekdaysWf (v : js ByWeekdayField) : Prop :=
  match v with
  | val (BwObj w) => Weekday.wf w
  | val (BwArr l) =>
      Forall (fun x => match x with
                       | WdObj w => Weekday.wf w
                       | WdNum _ => True
                       end) l
  | _ => True
  end.

(** The cross product hour x minute x second, hour outermost. *)
Definition crossProduct (hours minutes seconds : list Z) (ms : Z)
  : list dateutil.Time :=
  flat_map
    (fun h =>
       flat_map
         (fun m => map (fun s => dateutil.mkTime h m s ms) seconds)
         minutes)
    hours.

(** The working object that reaches the implicit derivation when the key,
    frequency and set-position checks pass. *)
Definition settled (D : Options) (now : Z) (options : RawOptions)
  : Options :=
  let o := easterOverride (merged D options) in
  promoteSetpos (resolveWkst (set_dtstart (val (startOf now o)) o)).

(** The tokens of a weekday constraint, a scalar counting as a one-element
    list. *)
Definition weekdayTokens (v : ByWeekdayField) : list ByWeekday :=
  match v with
  | BwNum c => [WdNum c]
  | BwObj w => [WdObj w]
  | BwArr l => l
  end.

(** The plain and the ordinal weekday bucket. *)
Definition weekdayBuckets (f : Z) (v : js ByWeekdayField)
  : js ByWeekdayField * js (list (list Z)) :=
  match v with
  | val x =>
      (plainBucket (filterMap (plainOf f) (weekdayTokens x)),
       ordinalBucket (filterMap (ordinalOf f) (weekdayTokens x)))
  | _ => (v, null)
  end.

(** The hour, minute or second list: the supplied values, or the field of
    the start instant. *)
Definition timeList (v : js NumOrArr) (start : Z) : list Z :=
  match v with
  | val (Num x) => [x]
  | val (Arr l) => l
  | _ => [start]
  end.

(** ** Sample inputs *)

(** The documented defaults with no default frequency. *)
Definition defaults0 : Options := documentedDefaults null.

(** [{freq: freq, bysetpos: v}] *)
Definition setposInput (v : Z) : RawOptions :=
  {| keys := ["freq"; "bysetpos"];
     fields := set_bysetpos (val (Num v)) (set_freq (val RRule.DAILY) blank) |}.

(** [{freq: 9, byeaster: 0}] *)
Definition easterInput : RawOptions :=
  {| keys := ["freq"; "byeaster"];
     fields :=
       {| freq := val 9; dtstart := undefined; interval := undefined;
          wkst := undefined; count := undefined; until := undefined;
          tzid := undefined; bysetpos := undefined; bymonth := undefined;
          bymonthday := undefined; bynmonthday := undefined;
          byyearday := undefined; byweekno := undefined;
          byweekday := undefined; bynweekday := undefined;
          byhour := undefined; byminute := undefined; bysecond := undefined;
          byeaster := val 0 |} |}.

(** [{freq: f, dtstart: new Date(t)}] *)
Definition startInput (f t : Z) : RawOptions :=
  {| keys := ["freq"; "dtstart"];
     fields := set_dtstart (val t) (set_freq (val f) blank) |}.

(** [{freq: DAILY, dtstart: new Date(951827696789), byhour: [9, 10],
      byminute: [0, 30], bysecond: [0]}]; the start is
    2000-02-29T12:34:56.789Z. *)
Definition dailyInput : RawOptions :=
  {| keys := ["freq"; "dtstart"; "byhour"; "byminute"; "bysecond"];
     fields :=
       set_bysecond (val (Arr [0]))
         (set_byminute (val (Arr [0; 30]))
            (set_byhour (val (Arr [9; 10]))
               (set_dtstart (val 951827696789)
                  (set_freq (val RRule.DAILY) blank)))) |}.

(** [{freq: DAILY, byhour: []}] *)
Definition emptyHourInput : RawOptions :=
  {| keys := ["freq"; "byhour"];
     fields := set_byhour (val (Arr [])) (set_freq (val RRule.DAILY) blank) |}.

(** [{freq: YEARLY, dtstart: new Date(951827696789), bymonth: 0}] *)
Definition monthZeroInput : RawOptions :=
  {| keys := ["freq"; "dtstart"; "bymonth"];
     fields :=
       set_bymonth (val (Num 0))
         (set_dtstart (val 951827696789)
            (set_freq (val RRule.YEARLY) blank)) |}.

(** [{freq: f, dtstart: new Date(951827696789), bymonthday: v}] *)
Definition monthdayInput (f : Z) (v : NumOrArr) : RawOptions :=
  {| keys := ["freq"; "dtstart"; "bymonthday"];
     fields :=
       set_bymonthday (val v)
         (set_dtstart (val 951827696789) (set_freq (val f) blank)) |}.

(** [{freq: f, dtstart: new Date(951827696789), byweekday: v}] *)
Definition weekdayInput (f : Z) (v : ByWeekdayField) : RawOptions :=
  {| keys := ["freq"; "dtstart"; "byweekday"];
     fields :=
       set_byweekday (val v)
         (set_dtstart (val 951827696789) (set_freq (val f) blank)) |}.

(** The second Tuesday: [new Weekday(1, 2)]. *)
Definition secondTuesday : Weekday.t := Weekday.mk 1 (Some 2).

(** [{freq: WEEKLY, dtstart: new Date(951827696789), byweekday: undefined}] *)
Definition undefinedWeekdayInput : RawOptions :=
  {| keys := ["freq"; "dtstart"; "byweekday"];
     fields :=
       set_dtstart (val 951827696789) (set_freq (val RRule.WEEKLY) blank) |}.

(** ** Proof steps *)

Ltac break_match :=
  match goal with
  | |- context [match ?x with _ => _ end] => destruct x eqn:?
  end.

(** ** Vocabulary of the further properties *)

(** The week-start code: Monday when absent, the number, or the code of
    the [Weekday]. *)
Definition wkstCode (v : js ByWeekday) : Z :=
  match v with
  | val (WdNum c) => c
  | val (WdObj w) => Weekday.weekday w
  | _ => 0
  end.

(** A field that is absent or a list, never a bare number. *)
Definition notScalar (v : js NumOrArr) : Prop :=
  match v with
  | val (Num _) => False
  | _ => True
  end.

(** The elements of a constraint, none when it is absent. *)
Definition elements (v : js NumOrArr) : list Z :=
  match v with
  | val (Num x) => [x]
  | val (Arr l) => l
  | _ => []
  end.

(** [{freq: f, dtstart: new Date(t), wkst: w}] *)
Definition wkstInput (f t : Z) (w : ByWeekday) : RawOptions :=
  {| keys := ["freq"; "dtstart"; "wkst"];
     fields :=
       set_wkst (val w) (set_dtstart (val t) (set_freq (val f) blank)) |}.

(** The same input with another value of one field. *)
Definition withFields (options : RawOptions) (o : Options) : RawOptions :=
  {| keys := keys options; fields := o |}.

(** The two weekday buckets computed from the weekday constraint that
    reaches lines 130-164. *)
Definition weekdayOut (f : Z) (v : js ByWeekdayField)
  : js ByWeekdayField * js (list (list Z)) :=
  match v with
  | val (BwNum x) => (plainCodes [x], null)
  | val (BwObj w) =>
      match classifyWeekday f w with
      | inl c => (plainCodes [c], null)
      | inr p => (null, val [p])
      end
  | val (BwArr l) =>
      let s := splitWeekday f l in
      (orNull (fst s) (plainCodes (fst s)), orNull (snd s) (val (snd s)))
  | _ => (v, null)
  end.

(** The month, month-day and weekday constraints after lines 64-87, read
    off the fields of the options that reach them. *)
Definition monthAfter (f t : Z) (m : Options) : js NumOrArr :=
  if noPositional m && (f =? RRule.YEARLY) && negb (Boolean (bymonth m))
  then val (Num (Date.getUTCMonth t + 1))
  else bymonth m.

Definition monthdayAfter (f t : Z) (m : Options) : js NumOrArr :=
  if noPositional m && ((f =? RRule.YEARLY) || (f =? RRule.MONTHLY))
  then val (Num (Date.getUTCDate t))
  else bymonthday m.

Definition weekdayAfter (f t : Z) (m : Options) : js ByWeekdayField :=
  if noPositional m && (f =? RRule.WEEKLY)
  then val (BwArr [WdNum (dateutil.getWeekday t)])
  else byweekday m.

(** The output for frequency [f] and start [t], field by field from the
    merged options [m]. *)
Definition canonical (f t : Z) (m : Options) : Options :=
  {| freq := val f;
     dtstart := val t;
     interval := interval m;
     wkst := val (WdNum (wkstCode (wkst m)));
     count := count m;
     until := until m;
     tzid := tzid m;
     bysetpos := toArray (bysetpos m);
     bymonth := toArray (monthAfter f t m);
     bymonthday := val (Arr (fst (monthdayBuckets (monthdayAfter f t m))));
     bynmonthday := val (snd (monthdayBuckets (monthdayAfter f t m)));
     byyearday := toArray (byyearday m);
     byweekno := toArray (byweekno m);
     byweekday := fst (weekdayOut f (weekdayAfter f t m));
     bynweekday := snd (weekdayOut f (weekdayAfter f t m));
     byhour :=
       normalizeTime f RRule.HOURLY (Date.getUTCHours t) (byhour m);
     byminute :=
       normalizeTime f RRule.MINUTELY (Date.getUTCMinutes t) (byminute m);
     bysecond :=
       normalizeTime f RRule.SECONDLY (Date.getUTCSeconds t) (bysecond m);
     byeaster := byeaster m |}.

(** The bare codes of a plain weekday bucket and the entries of an
    ordinal bucket, none when the bucket is absent. *)
Definition codes (v : js ByWeekdayField) : list ByWeekday :=
  match v with
  | val (BwArr l) => l
  | _ => []
  end.

Definition pairs (v : js (list (list Z))) : list (list Z) :=
  match v with
  | val l => l
  | _ => []
  end.

(** An entry of the ordinal bucket: a weekday code and a non-zero
    ordinal. *)
Definition ordinalEntry (p : list Z) : Prop :=
  exists c k, p = [c; k] /\ k <> 0.

(** A bare code. *)
Definition bareCode (x : ByWeekday) : Prop :=
  match x with
  | WdNum _ => True
  | WdObj _ => False
  end.

(** The assignments [opts.key = v] of the constraints for which a number
    and the one-element list holding it are told apart by nothing. *)
Definition scalarFields : list (js NumOrArr -> Options -> Options) :=
  [set_bysetpos; set_byyearday; set_byweekno; set_byhour; set_byminute;
   set_bysecond].

(** [{freq: f, dtstart: new Date(951827696789), byhour: v}] *)
Definition hourInput (f : Z) (v : NumOrArr) : RawOptions :=
  {| keys := ["freq"; "dtstart"; "byhour"];
     fields :=
       set_byhour (val v)
         (set_dtstart (val 951827696789) (set_freq (val f) blank)) |}.

(** [{freq: DAILY, dtstart: new Date(-1500), byhour: [9, 10],
      byminute: [0, 30], bysecond: [0]}]; the start is
    1969-12-31T23:59:58.500Z. *)
Definition beforeEpochInput : RawOptions :=
  {| keys := ["freq"; "dtstart"; "byhour"; "byminute"; "bysecond"];
     fields :=
       set_bysecond (val (Arr [0]))
         (set_byminute (val (Arr [0; 30]))
            (set_byhour (val (Arr [9; 10]))
               (set_dtstart (val (-1500))
                  (set_freq (val RRule.DAILY) blank)))) |}.

(** ** Basic facts *)

Lemma append_assoc (a b c : string) :
  ((a ++ b) ++ c = a ++ b ++ c)%string.
Proof. induction a as [|ch a IH]; simpl; [reflexivity|now rewrite IH]. Qed.

Lemma append_empty_r (a : string) : (a ++ "" = a)%string.
Proof. induction a as [|ch a IH]; simpl; [reflexivity|now rewrite IH]. Qed.

Lemma occursIn_concat (sep k : string) (l : list string) :
  In k l -> occursIn k (String.concat sep l).
Proof.
  induction l as [|x l IH]; [contradiction|].
  intros [->|Hin].
  - destruct l as [|y l]; simpl.
    + exists ""%string, ""%string. simpl. now rewrite append_empty_r.
    + exists ""%string, (sep ++ String.concat sep (y :: l))%string.
      reflexivity.
  - destruct l as [|y l]; [contradiction|].
    destruct (IH Hin) as (pre & post & E).
    exists (x ++ sep ++ pre)%string, post.
    change (String.concat sep (x :: y :: l))
      with (x ++ sep ++ String.concat sep (y :: l))%string.
    rewrite E. now rewrite !append_assoc.
Qed.

Lemma occursIn_append_r (k pre m : string) :
  occursIn k m -> occursIn k (pre ++ m).
Proof.
  intros (a & b & ->). exists (pre ++ a)%string, b.
  now rewrite append_assoc.
Qed.

Lemma contains_In (l : list string) (k : string) :
  contains l k = true <-> In k l.
Proof.
  unfold contains. rewrite existsb_exists. split.
  - intros (x & Hx & E). apply String.eqb_eq in E. now subst.
  - intros H. exists k. split; [assumption|apply String.eqb_refl].
Qed.

Lemma invalidKeys_In (options : RawOptions) (k : string) :
  In k (invalidKeys options) <->
  In k (keys options) /\ ~ In k defaultKeys.
Proof.
  unfold invalidKeys. rewrite filter_In, negb_true_iff.
  rewrite <- not_true_iff_false, contains_In. reflexivity.
Qed.

Lemma invalidKeys_nil (options : RawOptions) :
  invalidKeys options = [] <->
  forall k, In k (keys options) -> In k defaultKeys.
Proof.
  split.
  - intros E k Hk.
    destruct (in_dec string_dec k defaultKeys) as [H|H]; [assumption|].
    assert (Hin : In k (invalidKeys options))
      by (apply invalidKeys_In; now split).
    rewrite E in Hin. contradiction.
  - intros H. destruct (invalidKeys options) as [|k l] eqn:E; [reflexivity|].
    assert (Hin : In k (invalidKeys options)) by (rewrite E; now left).
    apply invalidKeys_In in Hin. destruct Hin as [Hk Hn].
    contradiction (Hn (H k Hk)).
Qed.

Lemma validFrequency_Some (v : js Z) (f : Z) :
  validFrequency v = Some f <-> v = val f /\ 0 <= f <= 6.
Proof.
  unfold validFrequency. destruct v as [| |x]; try (split; [discriminate|]);
    try (intros [E _]; discriminate).
  destruct (Z.ltb_spec x 0) as [Hx|Hx].
  - split; [discriminate|]. intros [E H]. injection E as ->. lia.
  - destruct (Z.le_gt_cases 7 x) as [H7|H7].
    + assert (E : nth_error RRule.FREQUENCIES (Z.to_nat x) = None).
      { apply nth_error_None. simpl. lia. }
      rewrite E. split; [discriminate|].
      intros [E' H]. injection E' as ->. lia.
    + assert (Hc : x = 0 \/ x = 1 \/ x = 2 \/ x = 3 \/ x = 4 \/ x = 5 \/
                   x = 6) by lia.
      destruct Hc as [->|[->|[->|[->|[->|[->| ->]]]]]]; simpl;
        (split; [intros E; injection E as <-; split; [reflexivity|lia]
                |intros [E _]; now injection E as <-]).
Qed.

Lemma validFrequency_isFrequency (v : js Z) :
  validFrequency v <> None <-> isFrequency v.
Proof.
  split.
  - destruct (validFrequency v) as [f|] eqn:E; [|congruence].
    intros _. apply validFrequency_Some in E. destruct E as [-> H].
    exists f. split; [reflexivity|].
    unfold RRule.YEARLY, RRule.MONTHLY, RRule.WEEKLY, RRule.DAILY,
      RRule.HOURLY, RRule.MINUTELY, RRule.SECONDLY. simpl. lia.
  - intros (f & -> & Hin).
    assert (E : validFrequency (val f) = Some f).
    { apply validFrequency_Some. split; [reflexivity|].
      unfold RRule.YEARLY, RRule.MONTHLY, RRule.WEEKLY, RRule.DAILY,
        RRule.HOURLY, RRule.MINUTELY, RRule.SECONDLY in Hin.
      simpl in Hin. lia. }
    congruence.
Qed.

Lemma badSetpos_legal (v : Z) : badSetpos v = false <-> legalSetpos v.
Proof. unfold badSetpos, legalSetpos. lia. Qed.

Lemma checkSetpos_Return (l : list Z) (u : unit) :
  checkSetpos l = Return u <-> Forall legalSetpos l.
Proof.
  destruct u. induction l as [|v l IH]; simpl.
  - split; [constructor|reflexivity].
  - destruct (badSetpos v) eqn:E.
    + split; [discriminate|]. intros H. inversion H as [|? ? Hv _]; subst.
      apply badSetpos_legal in Hv. congruence.
    + rewrite IH. split.
      * intros H. constructor; [now apply badSetpos_legal|assumption].
      * intros H. now inversion H.
Qed.

Lemma checkSetpos_Throw (l : list Z) (m : string) :
  checkSetpos l = Throw m <->
  m = setposMessage /\ Exists (fun v => ~ legalSetpos v) l.
Proof.
  induction l as [|v l IH]; simpl.
  - split; [discriminate|]. intros [_ H]. inversion H.
  - destruct (badSetpos v) eqn:E.
    + split.
      * intros H. injection H as <-. split; [reflexivity|].
        left. rewrite <- badSetpos_legal. congruence.
      * intros [-> _]. reflexivity.
    + rewrite IH. apply badSetpos_legal in E. split.
      * intros [-> H]. split; [reflexivity|now right].
      * intros [-> H]. split; [reflexivity|].
        inversion H; subst; [contradiction|assumption].
Qed.

(** ** The checks of lines 26-62 *)

Lemma easterOverride_fields (o : Options) :
  dtstart (easterOverride o) = dtstart o /\
  bysetpos (easterOverride o) = bysetpos o /\
  byeaster (easterOverride o) = byeaster o.
Proof. unfold easterOverride. destruct (isPresent (byeaster o)); auto. Qed.

Lemma resolveWkst_bysetpos (o : Options) :
  bysetpos (resolveWkst o) = bysetpos o.
Proof. unfold resolveWkst. repeat break_match; reflexivity. Qed.

Lemma resolveSetpos_Return (o o' : Options) :
  resolveSetpos o = Return o' <->
  o' = promoteSetpos o /\
  forall l, setposElements (bysetpos o) = Some l -> Forall legalSetpos l.
Proof.
  unfold resolveSetpos, promoteSetpos, setposElements.
  destruct (bysetpos o) as [| |[x|l]].
  - split; [intros E; injection E as <-; split; [reflexivity|discriminate]
           |intros [-> _]; reflexivity].
  - split; [intros E; injection E as <-; split; [reflexivity|discriminate]
           |intros [-> _]; reflexivity].
  - destruct (checkSetpos [x]) as [u|m] eqn:E.
    + apply checkSetpos_Return in E. split.
      * intros H. injection H as <-. split; [reflexivity|].
        intros l H. now injection H as <-.
      * intros [-> _]. reflexivity.
    + apply checkSetpos_Throw in E. destruct E as [_ E].
      split; [discriminate|]. intros [_ H].
      specialize (H _ eq_refl). inversion H as [|? ? Hx _]; subst.
      inversion E as [? ? Hn|? ? Hn]; subst; [contradiction|inversion Hn].
  - destruct (checkSetpos l) as [u|m] eqn:E.
    + apply checkSetpos_Return in E. split.
      * intros H. injection H as <-. split; [reflexivity|].
        intros l' H. now injection H as <-.
      * intros [-> _]. reflexivity.
    + apply checkSetpos_Throw in E. destruct E as [_ E].
      split; [discriminate|]. intros [_ H].
      specialize (H _ eq_refl). rewrite Forall_forall in H.
      rewrite Exists_exists in E. destruct E as (v & Hv & Hn).
      contradiction (Hn (H v Hv)).
Qed.

Lemma resolveSetpos_Throw (o : Options) (m : string) :
  resolveSetpos o = Throw m <->
  m = setposMessage /\
  exists l, setposElements (bysetpos o) = Some l /\
            Exists (fun v => ~ legalSetpos v) l.
Proof.
  unfold resolveSetpos, setposElements.
  destruct (bysetpos o) as [| |[x|l]].
  - split; [discriminate|]. intros [_ (l & E & _)]. discriminate.
  - split; [discriminate|]. intros [_ (l & E & _)]. discriminate.
  - destruct (checkSetpos [x]) as [u|m'] eqn:E.
    + apply checkSetpos_Return in E. split; [discriminate|].
      intros [_ (l & El & Hl)]. injection El as <-.
      inversion E as [|? ? Hx _]; subst.
      inversion Hl as [? ? Hn|? ? Hn]; subst; [contradiction|inversion Hn].
    + apply checkSetpos_Throw in E. destruct E as [-> E]. split.
      * intros H. injection H as <-. split; [reflexivity|].
        exists [x]. now split.
      * intros [-> _]. reflexivity.
  - destruct (checkSetpos l) as [u|m'] eqn:E.
    + apply checkSetpos_Return in E. split; [discriminate|].
      intros [_ (l' & El & Hl)]. injection El as <-.
      rewrite Forall_forall in E. rewrite Exists_exists in Hl.
      destruct Hl as (v & Hv & Hn). contradiction (Hn (E v Hv)).
    + apply checkSetpos_Throw in E. destruct E as [-> E]. split.
      * intros H. injection H as <-. split; [reflexivity|].
        exists l. now split.
      * intros [-> _]. reflexivity.
Qed.

Lemma bysetpos_before_check (D : Options) (now : Z) (options : RawOptions) :
  let o := easterOverride (merged D options) in
  bysetpos (resolveWkst (set_dtstart (val (startOf now o)) o)) =
  bysetpos (merged D options).
Proof.
  intros o. rewrite resolveWkst_bysetpos. simpl.
  apply (easterOverride_fields (merged D options)).
Qed.

Lemma anchored_Return (D : Options) (now : Z) (options : RawOptions)
  (f t : Z) (opts : Options) :
  anchored D now options = Return (f, t, opts) <->
  invalidKeys options = [] /\
  validFrequency (freq (easterOverride (merged D options))) = Some f /\
  t = startOf now (merged D options) /\
  opts = settled D now options /\
  forall l, setposElements (bysetpos (merged D options)) = Some l ->
            Forall legalSetpos l.
Proof.
  unfold anchored, initializeOptions, settled.
  fold (merged D options).
  assert (Hs : startOf now (easterOverride (merged D options)) =
               startOf now (merged D options)).
  { unfold startOf.
    now rewrite (proj1 (easterOverride_fields (merged D options))). }
  destruct (invalidKeys options) as [|k inv] eqn:Ek.
  - change (mergeDefaults D (keys options) (copyOptions options))
      with (merged D options).
    destruct (validFrequency (freq (easterOverride (merged D options))))
      as [f'|] eqn:Ef.
    + pose proof (bysetpos_before_check D now options) as Hb.
      cbv zeta in Hb.
      destruct (resolveSetpos _) as [o'|m] eqn:Er.
      * apply resolveSetpos_Return in Er. destruct Er as [-> Hl].
        rewrite Hb in Hl. split.
        -- intros E. injection E as <- <- <-. rewrite Hs. auto.
        -- intros (_ & E1 & -> & -> & _). injection E1 as <-.
           now rewrite Hs.
      * apply resolveSetpos_Throw in Er.
        destruct Er as [_ (l & El & Hl)]. rewrite Hb in El.
        split; [discriminate|]. intros (_ & _ & _ & _ & H).
        specialize (H _ El). rewrite Forall_forall in H.
        rewrite Exists_exists in Hl. destruct Hl as (v & Hv & Hn).
        contradiction (Hn (H v Hv)).
    + split; [discriminate|]. intros (_ & E & _). discriminate.
  - split; [discriminate|]. intros (E & _). discriminate.
Qed.

Lemma anchored_Throw (D : Options) (now : Z) (options : RawOptions)
  (m : string) :
  anchored D now options = Throw m <->
  (invalidKeys options <> [] /\
   m = ("Invalid options: " ++ String.concat ", " (invalidKeys options))
         %string) \/
  (invalidKeys options = [] /\
   validFrequency (freq (easterOverride (merged D options))) = None /\
   m = ("Invalid frequency: " ++
        toString (freq (easterOverride (merged D options))))%string) \/
  (invalidKeys options = [] /\
   validFrequency (freq (easterOverride (merged D options))) <> None /\
   m = setposMessage /\
   exists l, setposElements (bysetpos (merged D options)) = Some l /\
             Exists (fun v => ~ legalSetpos v) l).
Proof.
  unfold anchored, initializeOptions.
  destruct (invalidKeys options) as [|k inv] eqn:Ek.
  - change (mergeDefaults D (keys options) (copyOptions options))
      with (merged D options).
    destruct (validFrequency (freq (easterOverride (merged D options))))
      as [f'|] eqn:Ef.
    + pose proof (bysetpos_before_check D now options) as Hb.
      cbv zeta in Hb.
      destruct (resolveSetpos _) as [o'|m'] eqn:Er.
      * split; [discriminate|].
        intros [[H _]|[(_ & H & _)|(_ & _ & _ & l & El & Hl)]];
          try congruence.
        apply resolveSetpos_Return in Er. destruct Er as [_ H].
        rewrite Hb in H. specialize (H _ El). rewrite Forall_forall in H.
        rewrite Exists_exists in Hl. destruct Hl as (v & Hv & Hn).
        contradiction (Hn (H v Hv)).
      * apply resolveSetpos_Throw in Er. destruct Er as [-> Hl].
        rewrite Hb in Hl. split.
        -- intros E. injection E as <-. right. right.
           repeat split; [congruence|assumption].
        -- intros [[H _]|[(_ & H & _)|(_ & _ & -> & _)]];
             [congruence|congruence|reflexivity].
    + split.
      * intros E. injection E as <-. right. left. auto.
      * intros [[H _]|[(_ & _ & ->)|(_ & H & _)]];
          [congruence|reflexivity|congruence].
  - split.
    + intros E. injection E as <-. left. split; [discriminate|reflexivity].
    + intros [[_ ->]|[(H & _)|(H & _)]]; [reflexivity|discriminate..].
Qed.

(** ** The loops of the field normaliser *)

Lemma splitMonthday_acc (l p n : list Z) :
  fold_left
    (fun acc v =>
       if v >? 0 then (fst acc ++ [v], snd acc)
       else if v <? 0 then (fst acc, snd acc ++ [v])
       else acc)
    l (p, n) =
  (p ++ filter (fun x => 0 <? x) l, n ++ filter (fun x => x <? 0) l).
Proof.
  revert p n. induction l as [|v l IH]; intros p n; simpl.
  - now rewrite !app_nil_r.
  - destruct (Z.gtb_spec v 0) as [Hv|Hv].
    + rewrite IH. simpl.
      replace (0 <? v) with true by (symmetry; apply Z.ltb_lt; lia).
      replace (v <? 0) with false by (symmetry; apply Z.ltb_ge; lia).
      now rewrite <- app_assoc.
    + destruct (Z.ltb_spec v 0) as [Hn|Hn].
      * rewrite IH. simpl.
        replace (0 <? v) with false by (symmetry; apply Z.ltb_ge; lia).
        now rewrite <- app_assoc.
      * rewrite IH.
        replace (0 <? v) with false by (symmetry; apply Z.ltb_ge; lia).
        reflexivity.
Qed.

Lemma splitMonthday_filter (l : list Z) :
  splitMonthday l =
  (filter (fun x => 0 <? x) l, filter (fun x => x <? 0) l).
Proof. unfold splitMonthday. now rewrite splitMonthday_acc. Qed.

Lemma finerThanMonthly_gtb (f : Z) :
  0 <= f <= 6 -> finerThanMonthly f = (f >? RRule.MONTHLY).
Proof.
  intros H. unfold finerThanMonthly, RRule.MONTHLY, RRule.WEEKLY,
    RRule.DAILY, RRule.HOURLY, RRule.MINUTELY, RRule.SECONDLY. simpl.
  assert (Hc : f = 0 \/ f = 1 \/ f = 2 \/ f = 3 \/ f = 4 \/ f = 5 \/ f = 6)
    by lia.
  destruct Hc as [->|[->|[->|[->|[->|[->| ->]]]]]]; reflexivity.
Qed.

Lemma classifyWeekday_spec (f : Z) (w : Weekday.t) :
  0 <= f <= 6 -> Weekday.wf w ->
  classifyWeekday f w =
  match ordinalOf f (WdObj w) with
  | Some p => inr p
  | None => inl (Weekday.weekday w)
  end /\
  plainOf f (WdObj w) =
  match ordinalOf f (WdObj w) with
  | Some _ => None
  | None => Some (Weekday.weekday w)
  end.
Proof.
  intros Hf Hw. unfold classifyWeekday, ordinalOf, plainOf, Weekday.wf in *.
  rewrite (finerThanMonthly_gtb f Hf).
  destruct (Weekday.n w) as [k|]; [|split; reflexivity].
  assert (Hk : (k =? 0) = false) by (apply Z.eqb_neq; congruence).
  rewrite Hk. simpl. destruct (f >? RRule.MONTHLY); split; reflexivity.
Qed.

Lemma splitWeekday_acc (f : Z) (l : list ByWeekday) (p : list Z)
  (q : list (list Z)) :
  0 <= f <= 6 ->
  Forall (fun x => match x with
                   | WdObj w => Weekday.wf w
                   | WdNum _ => True
                   end) l ->
  fold_left
    (fun acc wday =>
       match wday with
       | WdNum x => (fst acc ++ [x], snd acc)
       | WdObj wd =>
           match classifyWeekday f wd with
           | inl c => (fst acc ++ [c], snd acc)
           | inr r => (fst acc, snd acc ++ [r])
           end
       end)
    l (p, q) =
  (p ++ filterMap (plainOf f) l, q ++ filterMap (ordinalOf f) l).
Proof.
  intros Hf Hl. revert p q.
  induction Hl as [|x l Hx Hl IH]; intros p q; simpl fold_left.
  - simpl. now rewrite !app_nil_r.
  - destruct x as [c|w].
    + rewrite IH. simpl. now rewrite <- app_assoc.
    + destruct (classifyWeekday_spec f w Hf Hx) as [Ec Ep].
      rewrite Ec. cbn [filterMap]. rewrite Ep.
      destruct (ordinalOf f (WdObj w)) as [r|]; rewrite IH; simpl;
        now rewrite <- app_assoc.
Qed.

Lemma splitWeekday_filterMap (f : Z) (l : list ByWeekday) :
  0 <= f <= 6 ->
  Forall (fun x => match x with
                   | WdObj w => Weekday.wf w
                   | WdNum _ => True
                   end) l ->
  splitWeekday f l = (filterMap (plainOf f) l, filterMap (ordinalOf f) l).
Proof.
  intros Hf Hl. unfold splitWeekday. now rewrite splitWeekday_acc.
Qed.

(** ** The timeset *)

Lemma pushSeconds_acc (h m ms : Z) (ss : list Z) (ts : list dateutil.Time) :
  fold_left (fun ts s => ts ++ [dateutil.mkTime h m s ms]) ss ts =
  ts ++ map (fun s => dateutil.mkTime h m s ms) ss.
Proof.
  revert ts. induction ss as [|s ss IH]; intros ts; simpl.
  - now rewrite app_nil_r.
  - rewrite IH. now rewrite <- app_assoc.
Qed.

Lemma pushMinutes_acc (h ms : Z) (mins ss : list Z)
  (ts : list dateutil.Time) :
  fold_left
    (fun ts m =>
       fold_left (fun ts s => ts ++ [dateutil.mkTime h m s ms]) ss ts)
    mins ts =
  ts ++ flat_map (fun m => map (fun s => dateutil.mkTime h m s ms) ss) mins.
Proof.
  revert ts. induction mins as [|m mins IH]; intros ts; simpl.
  - now rewrite app_nil_r.
  - rewrite pushSeconds_acc, IH. now rewrite <- app_assoc.
Qed.

Lemma pushHours_acc (ms : Z) (hs mins ss : list Z)
  (ts : list dateutil.Time) :
  fold_left
    (fun ts h =>
       fold_left
         (fun ts m =>
            fold_left (fun ts s => ts ++ [dateutil.mkTime h m s ms]) ss ts)
         mins ts)
    hs ts =
  ts ++ crossProduct hs mins ss ms.
Proof.
  unfold crossProduct. revert ts.
  induction hs as [|h hs IH]; intros ts; simpl.
  - now rewrite app_nil_r.
  - rewrite pushMinutes_acc, IH. now rewrite <- app_assoc.
Qed.

Lemma pushTimes_crossProduct (hs mins ss : list Z) (ms : Z) :
  pushTimes hs mins ss ms = crossProduct hs mins ss ms.
Proof. unfold pushTimes. now rewrite pushHours_acc. Qed.

Lemma crossProduct_length (hs mins ss : list Z) (ms : Z) :
  List.length (crossProduct hs mins ss ms) =
  (List.length hs * (List.length mins * List.length ss))%nat.
Proof.
  unfold crossProduct. induction hs as [|h hs IH]; simpl; [reflexivity|].
  rewrite length_app, IH. f_equal. clear IH.
  induction mins as [|m mins IHm]; simpl; [reflexivity|].
  now rewrite length_app, length_map, IHm.
Qed.

Lemma crossProduct_millisecond (hs mins ss : list Z) (ms : Z) :
  Forall (fun x => dateutil.millisecond x = ms) (crossProduct hs mins ss ms).
Proof.
  unfold crossProduct. apply Forall_forall. intros x Hx.
  apply in_flat_map in Hx. destruct Hx as (h & _ & Hx).
  apply in_flat_map in Hx. destruct Hx as (m & _ & Hx).
  apply in_map_iff in Hx. destruct Hx as (s & <- & _). reflexivity.
Qed.

Lemma leb_iff (a b : dateutil.Time) :
  dateutil.leb a b = true <->
  dateutil.hour a < dateutil.hour b \/
  dateutil.hour a = dateutil.hour b /\
  (dateutil.minute a < dateutil.minute b \/
   dateutil.minute a = dateutil.minute b /\
   (dateutil.second a < dateutil.second b \/
    dateutil.second a = dateutil.second b /\
    dateutil.millisecond a <= dateutil.millisecond b)).
Proof.
  unfold dateutil.leb.
  rewrite !orb_true_iff, !andb_true_iff, !orb_true_iff, !andb_true_iff.
  rewrite !orb_true_iff, !andb_true_iff.
  rewrite !Z.ltb_lt, !Z.eqb_eq, Z.leb_le. reflexivity.
Qed.

Lemma leb_total (a b : dateutil.Time) :
  dateutil.leb a b = false -> dateutil.leb b a = true.
Proof.
  intros H. apply leb_iff. apply not_true_iff_false in H.
  rewrite leb_iff in H. lia.
Qed.

Lemma le_trans (a b c : dateutil.Time) :
  dateutil.le a b -> dateutil.le b c -> dateutil.le a c.
Proof. unfold dateutil.le. rewrite !leb_iff. lia. Qed.

Lemma insert_Permutation (x : dateutil.Time) (l : list dateutil.Time) :
  Permutation (x :: l) (dateutil.insert x l).
Proof.
  induction l as [|y l IH]; simpl; [reflexivity|].
  destruct (dateutil.leb x y); [reflexivity|].
  rewrite perm_swap. now constructor.
Qed.

Lemma insert_Sorted (x : dateutil.Time) (l : list dateutil.Time) :
  Sorted dateutil.le l -> Sorted dateutil.le (dateutil.insert x l).
Proof.
  induction l as [|y l IH]; intros Hl; simpl.
  - repeat constructor.
  - destruct (dateutil.leb x y) eqn:E.
    + constructor; [assumption|]. now constructor.
    + apply Sorted_inv in Hl. destruct Hl as [Hl Hy].
      constructor; [now apply IH|].
      destruct l as [|z l]; simpl.
      * constructor. now apply leb_total.
      * destruct (dateutil.leb x z).
        -- constructor. now apply leb_total.
        -- constructor. now inversion Hy.
Qed.

Lemma sort_Permutation (l : list dateutil.Time) :
  Permutation (dateutil.sort l) l.
Proof.
  unfold dateutil.sort. induction l as [|x l IH]; simpl; [reflexivity|].
  rewrite <- insert_Permutation. now constructor.
Qed.

Lemma sort_Sorted (l : list dateutil.Time) :
  StronglySorted dateutil.le (dateutil.sort l).
Proof.
  apply Sorted_StronglySorted; [exact le_trans|].
  unfold dateutil.sort. induction l as [|x l IH]; simpl.
  - constructor.
  - now apply insert_Sorted.
Qed.

(** ** The normalised fields *)

Lemma implicit_untouched (f t : Z) (o : Options) :
  freq (implicit f t o) = freq o /\
  dtstart (implicit f t o) = dtstart o /\
  byhour (implicit f t o) = byhour o /\
  byminute (implicit f t o) = byminute o /\
  bysecond (implicit f t o) = bysecond o.
Proof.
  unfold implicit, deriveFromStart.
  repeat break_match; repeat split; reflexivity.
Qed.

Lemma normalizeMonthday_fields (o : Options) :
  bymonthday (normalizeMonthday o) =
    val (Arr (fst (monthdayBuckets (bymonthday o)))) /\
  bynmonthday (normalizeMonthday o) =
    val (snd (monthdayBuckets (bymonthday o))).
Proof.
  unfold normalizeMonthday, monthdayBuckets.
  destruct (bymonthday o) as [| |[x|l]]; try (split; reflexivity).
  - destruct (x <? 0); split; reflexivity.
  - rewrite splitMonthday_filter. split; reflexivity.
Qed.

Lemma normalizeWeekday_fields (f : Z) (o : Options) :
  0 <= f <= 6 -> weekdaysWf (byweekday o) ->
  byweekday (normalizeWeekday f o) = fst (weekdayBuckets f (byweekday o)) /\
  bynweekday (normalizeWeekday f o) = snd (weekdayBuckets f (byweekday o)).
Proof.
  intros Hf Hw. unfold normalizeWeekday, weekdayBuckets, weekdaysWf in *.
  destruct (byweekday o) as [| |[c|w|l]] eqn:E.
  - cbn. rewrite E. split; reflexivity.
  - cbn. rewrite E. split; reflexivity.
  - split; reflexivity.
  - destruct (classifyWeekday_spec f w Hf Hw) as [Ec Ep].
    rewrite Ec. cbn [weekdayTokens filterMap]. rewrite Ep.
    destruct (ordinalOf f (WdObj w)); split; reflexivity.
  - rewrite (splitWeekday_filterMap f l Hf Hw). cbn [weekdayTokens fst snd].
    unfold orNull, plainBucket, ordinalBucket, plainCodes.
    destruct (filterMap (plainOf f) l), (filterMap (ordinalOf f) l);
      split; reflexivity.
Qed.

Lemma normalizeMonthday_untouched (o : Options) :
  freq (normalizeMonthday o) = freq o /\
  dtstart (normalizeMonthday o) = dtstart o /\
  bymonth (normalizeMonthday o) = bymonth o /\
  byweekday (normalizeMonthday o) = byweekday o /\
  byhour (normalizeMonthday o) = byhour o /\
  byminute (normalizeMonthday o) = byminute o /\
  bysecond (normalizeMonthday o) = bysecond o.
Proof.
  unfold normalizeMonthday.
  destruct (bymonthday o) as [| |[x|l]]; try destruct (x <? 0);
    repeat split; reflexivity.
Qed.

Lemma normalizeWeekday_untouched (f : Z) (o : Options) :
  freq (normalizeWeekday f o) = freq o /\
  dtstart (normalizeWeekday f o) = dtstart o /\
  bymonth (normalizeWeekday f o) = bymonth o /\
  bymonthday (normalizeWeekday f o) = bymonthday o /\
  bynmonthday (normalizeWeekday f o) = bynmonthday o /\
  byhour (normalizeWeekday f o) = byhour o /\
  byminute (normalizeWeekday f o) = byminute o /\
  bysecond (normalizeWeekday f o) = bysecond o.
Proof.
  unfold normalizeWeekday.
  destruct (byweekday o) as [| |[c|w|l]];
    try destruct (classifyWeekday f w); repeat split; reflexivity.
Qed.

Lemma normalizeFields_fields (f t : Z) (o : Options) :
  freq (normalizeFields f t o) = freq o /\
  dtstart (normalizeFields f t o) = dtstart o /\
  bymonth (normalizeFields f t o) = toArray (bymonth o) /\
  bymonthday (normalizeFields f t o) =
    val (Arr (fst (monthdayBuckets (bymonthday o)))) /\
  bynmonthday (normalizeFields f t o) =
    val (snd (monthdayBuckets (bymonthday o))) /\
  byhour (normalizeFields f t o) =
    normalizeTime f RRule.HOURLY (Date.getUTCHours t) (byhour o) /\
  byminute (normalizeFields f t o) =
    normalizeTime f RRule.MINUTELY (Date.getUTCMinutes t) (byminute o) /\
  bysecond (normalizeFields f t o) =
    normalizeTime f RRule.SECONDLY (Date.getUTCSeconds t) (bysecond o).
Proof.
  unfold normalizeFields. cbv zeta.
  set (X := set_byyearday (toArray (byyearday o))
              (set_bymonth (toArray (bymonth o)) o)).
  set (Y := set_byweekno (toArray (byweekno (normalizeMonthday X)))
              (normalizeMonthday X)).
  destruct (normalizeWeekday_untouched f Y)
    as (Wf & Wd & Wm & Wmd & Wnmd & Wh & Wmi & Ws).
  destruct (normalizeMonthday_untouched X)
    as (Mf & Md & Mm & _ & Mh & Mmi & Ms).
  destruct (normalizeMonthday_fields X) as (Fp & Fn).
  change (bymonthday X) with (bymonthday o) in Fp, Fn.
  change (freq Y) with (freq (normalizeMonthday X)) in Wf.
  change (dtstart Y) with (dtstart (normalizeMonthday X)) in Wd.
  change (bymonth Y) with (bymonth (normalizeMonthday X)) in Wm.
  change (bymonthday Y) with (bymonthday (normalizeMonthday X)) in Wmd.
  change (bynmonthday Y) with (bynmonthday (normalizeMonthday X)) in Wnmd.
  change (byhour Y) with (byhour (normalizeMonthday X)) in Wh.
  change (byminute Y) with (byminute (normalizeMonthday X)) in Wmi.
  change (bysecond Y) with (bysecond (normalizeMonthday X)) in Ws.
  repeat split.
  - exact (eq_trans Wf Mf).
  - exact (eq_trans Wd Md).
  - exact (eq_trans Wm Mm).
  - exact (eq_trans Wmd Fp).
  - exact (eq_trans Wnmd Fn).
  - exact (f_equal (normalizeTime f RRule.HOURLY (Date.getUTCHours t))
             (eq_trans Wh Mh)).
  - exact (f_equal (normalizeTime f RRule.MINUTELY (Date.getUTCMinutes t))
             (eq_trans Wmi Mmi)).
  - exact (f_equal (normalizeTime f RRule.SECONDLY (Date.getUTCSeconds t))
             (eq_trans Ws Ms)).
Qed.

Lemma normalizeFields_weekday (f t : Z) (o : Options) :
  0 <= f <= 6 -> weekdaysWf (byweekday o) ->
  byweekday (normalizeFields f t o) = fst (weekdayBuckets f (byweekday o)) /\
  bynweekday (normalizeFields f t o) = snd (weekdayBuckets f (byweekday o)).
Proof.
  intros Hf Hw. unfold normalizeFields. cbv zeta.
  set (X := set_byyearday (toArray (byyearday o))
              (set_bymonth (toArray (bymonth o)) o)).
  set (Y := set_byweekno (toArray (byweekno (normalizeMonthday X)))
              (normalizeMonthday X)).
  assert (E : byweekday Y = byweekday o).
  { change (byweekday Y) with (byweekday (normalizeMonthday X)).
    now rewrite (proj1 (proj2 (proj2 (proj2
                  (normalizeMonthday_untouched X))))). }
  assert (HwY : weekdaysWf (byweekday Y)) by now rewrite E.
  destruct (normalizeWeekday_fields f Y Hf HwY) as [Ep Eo].
  rewrite E in Ep, Eo.
  split; [exact Ep|exact Eo].
Qed.

Lemma normalizeTime_coarse (f level start : Z) (v : js NumOrArr) :
  f < level -> normalizeTime f level start v = val (Arr (timeList v start)).
Proof.
  intros H. unfold normalizeTime, timeList.
  destruct v as [| |[x|l]]; try reflexivity;
    now replace (f <? level) with true by (symmetry; apply Z.ltb_lt; lia).
Qed.

Lemma settled_fields (D : Options) (now : Z) (options : RawOptions) :
  let m := merged D options in
  let o := settled D now options in
  freq o = freq (easterOverride m) /\
  dtstart o = val (startOf now m) /\
  bymonth o = bymonth m /\ bymonthday o = bymonthday m /\
  byyearday o = byyearday m /\ byweekno o = byweekno m /\
  byweekday o = byweekday m /\ byeaster o = byeaster m /\
  byhour o = byhour m /\ byminute o = byminute m /\
  bysecond o = bysecond m.
Proof.
  intros m o. subst o. unfold settled. fold m.
  assert (Hs : startOf now (easterOverride m) = startOf now m).
  { unfold startOf. now rewrite (proj1 (easterOverride_fields m)). }
  rewrite Hs.
  unfold promoteSetpos, resolveWkst, easterOverride.
  destruct (isPresent (byeaster m));
    repeat break_match; repeat split; reflexivity.
Qed.

(** The timeset of a successful call: none from HOURLY on, otherwise the
    sorted product of the three normalised lists. *)
Lemma parseOptions_Return (D : Options) (now : Z) (options : RawOptions)
  (f t : Z) (opts : Options) :
  anchored D now options = Return (f, t, opts) ->
  let out := normalizeFields f t (implicit f t opts) in
  exists ts,
    parseOptions D now options = Return (out, ts) /\
    freq out = val f /\ dtstart out = val t /\ 0 <= f <= 6 /\
    (RRule.HOURLY <= f -> ts = None) /\
    (f < RRule.HOURLY ->
     byhour out = val (Arr (timeList (byhour opts) (Date.getUTCHours t))) /\
     byminute out =
       val (Arr (timeList (byminute opts) (Date.getUTCMinutes t))) /\
     bysecond out =
       val (Arr (timeList (bysecond opts) (Date.getUTCSeconds t))) /\
     ts = Some (dateutil.sort
                  (crossProduct
                     (timeList (byhour opts) (Date.getUTCHours t))
                     (timeList (byminute opts) (Date.getUTCMinutes t))
                     (timeList (bysecond opts) (Date.getUTCSeconds t))
                     (millisecondModulo t)))).
Proof.
  intros Ha out.
  pose proof Ha as Hr. apply anchored_Return in Hr.
  destruct Hr as (_ & Hf & Ht & Ho & _).
  apply validFrequency_Some in Hf. destruct Hf as [Hf Hrange].
  destruct (settled_fields D now options) as (Sf & Sd & _).
  cbv zeta in Sf, Sd. rewrite <- Ho in Sf, Sd. rewrite <- Ht in Sd.
  destruct (normalizeFields_fields f t (implicit f t opts))
    as (Nf & Nd & _ & _ & _ & Nh & Nm & Ns).
  destruct (implicit_untouched f t opts) as (If & Id & Ih & Im & Is).
  rewrite If in Nf. rewrite Id in Nd. rewrite Ih in Nh. rewrite Im in Nm.
  rewrite Is in Ns. fold out in Nf, Nd, Nh, Nm, Ns.
  unfold parseOptions. rewrite Ha. fold out. unfold buildTimeset.
  destruct (Z.geb_spec f RRule.HOURLY) as [Hge|Hlt].
  - exists None. repeat split; try congruence; try lia.
    all: try (intros; unfold RRule.HOURLY in *; lia).
  - unfold RRule.HOURLY in Hlt.
    rewrite normalizeTime_coarse in Nh by (unfold RRule.HOURLY; lia).
    rewrite normalizeTime_coarse in Nm by (unfold RRule.MINUTELY; lia).
    rewrite normalizeTime_coarse in Ns by (unfold RRule.SECONDLY; lia).
    rewrite Nh, Nm, Ns, pushTimes_crossProduct.
    eexists. split; [reflexivity|].
    repeat split; try congruence; try lia.
    all: try (intros; unfold RRule.HOURLY in *; lia).
Qed.

Lemma parseOptions_Throw (D : Options) (now : Z) (options : RawOptions)
  (m : string) :
  parseOptions D now options = Throw m <-> anchored D now options = Throw m.
Proof.
  destruct (anchored D now options) as [[[f t] opts]|m'] eqn:Ha.
  - destruct (parseOptions_Return D now options f t opts Ha)
      as (ts & E & _). rewrite E. split; discriminate.
  - unfold parseOptions. rewrite Ha. split; intros E; congruence.
Qed.

(** ** Error handling *)

Lemma kinds_disjoint (m : string) :
  (InvalidOptionKey m -> InvalidFrequency m -> False) /\
  (InvalidOptionKey m -> InvalidSetPosition m -> False) /\
  (InvalidFrequency m -> InvalidSetPosition m -> False).
Proof.
  unfold InvalidOptionKey, InvalidFrequency, InvalidSetPosition,
    setposMessage.
  repeat split.
  - intros (a & ->) (b & E). simpl in E. discriminate.
  - intros (a & ->) E. simpl in E. discriminate.
  - intros (a & ->) E. simpl in E. discriminate.
Qed.

Lemma parseOptions_inv (D : Options) (now : Z) (options : RawOptions)
  (out : Options) (ts : option (list dateutil.Time)) :
  parseOptions D now options = Return (out, ts) ->
  exists f t opts,
    anchored D now options = Return (f, t, opts) /\
    out = normalizeFields f t (implicit f t opts).
Proof.
  intros H. destruct (anchored D now options) as [[[f t] opts]|m] eqn:Ha.
  - exists f, t, opts. split; [reflexivity|].
    destruct (parseOptions_Return D now options f t opts Ha) as (ts' & E & _).
    rewrite E in H. now injection H as <- _.
  - apply parseOptions_Throw in Ha. congruence.
Qed.

(** C6.  [parseOptions] fails with an invalid-key error exactly when the
    input has a key outside the recognised set; the message is the prefix
    followed by all the unrecognised keys joined by a comma, so every one
    of them occurs in it; an input whose keys are all recognised passes
    [initializeOptions], which returns the copy.  The input with the keys
    [freq] and [foo] fails with a message in which [foo] occurs. *)
Theorem C6_key_validation (D : Options) (now : Z) (options : RawOptions) :
  ((exists m, parseOptions D now options = Throw m /\ InvalidOptionKey m) <->
   (exists k, In k (keys options) /\ ~ In k defaultKeys)) /\
  (forall m,
      parseOptions D now options = Throw m -> InvalidOptionKey m ->
      m = ("Invalid options: " ++ String.concat ", " (invalidKeys options))
            %string /\
      forall k, In k (keys options) -> ~ In k defaultKeys -> occursIn k m) /\
  ((forall k, In k (keys options) -> In k defaultKeys) ->
   initializeOptions options = Return (copyOptions options)) /\
  (exists m,
      parseOptions D now {| keys := ["freq"; "foo"]; fields := blank |} =
        Throw m /\
      InvalidOptionKey m /\ occursIn "foo" m).
Proof.
  assert (Hthrow : forall m,
             parseOptions D now options = Throw m -> InvalidOptionKey m ->
             invalidKeys options <> [] /\
             m = ("Invalid options: " ++
                  String.concat ", " (invalidKeys options))%string).
  { intros m Hm Hk. apply parseOptions_Throw, anchored_Throw in Hm.
    destruct Hm as [[Hne ->]|[(_ & _ & ->)|(_ & _ & -> & _)]].
    - now split.
    - exfalso. apply (proj1 (kinds_disjoint _) Hk). now eexists.
    - exfalso. apply (proj1 (proj2 (kinds_disjoint _)) Hk). reflexivity. }
  repeat split.
  - intros (m & Hm & Hk). destruct (Hthrow m Hm Hk) as [Hne _].
    destruct (invalidKeys options) as [|k l] eqn:E; [congruence|].
    exists k. apply invalidKeys_In. rewrite E. now left.
  - intros (k & Hk & Hn).
    exists ("Invalid options: " ++
            String.concat ", " (invalidKeys options))%string.
    split; [|now eexists].
    apply parseOptions_Throw, anchored_Throw. left. split; [|reflexivity].
    intros E. assert (Hin : In k (invalidKeys options))
      by (apply invalidKeys_In; now split).
    rewrite E in Hin. contradiction.
  - now apply Hthrow.
  - intros k Hk Hn. destruct (Hthrow m H H0) as [_ ->].
    apply occursIn_append_r, occursIn_concat, invalidKeys_In. now split.
  - intros Hall. apply invalidKeys_nil in Hall.
    unfold initializeOptions. now rewrite Hall.
  - exists "Invalid options: foo"%string. repeat split.
    + now exists "foo"%string.
    + now exists "Invalid options: "%string, ""%string.
Qed.

(** C7.  On an input that passes key validation: when an Easter offset is
    present the call never fails with an invalid-frequency error and the
    frequency of every output is YEARLY, whatever frequency was supplied;
    when none is present the call fails with an invalid-frequency error
    exactly when the supplied-or-defaulted frequency is not one of the
    seven members of the enum, and the message shows that value. *)
Theorem C7_frequency (D : Options) (now : Z) (options : RawOptions) :
  invalidKeys options = [] ->
  (isPresent (byeaster (merged D options)) = true ->
   (forall m, parseOptions D now options = Throw m -> ~ InvalidFrequency m) /\
   (forall out ts,
       parseOptions D now options = Return (out, ts) ->
       freq out = val RRule.YEARLY)) /\
  (isPresent (byeaster (merged D options)) = false ->
   ((exists m, parseOptions D now options = Throw m /\ InvalidFrequency m) <->
    ~ isFrequency (freq (merged D options))) /\
   (forall m,
       parseOptions D now options = Throw m -> InvalidFrequency m ->
       m = ("Invalid frequency: " ++ toString (freq (merged D options)))
             %string) /\
   (forall out ts,
       parseOptions D now options = Return (out, ts) ->
       freq out = freq (merged D options))).
Proof.
  intros Hkeys.
  assert (Hout : forall out ts,
             parseOptions D now options = Return (out, ts) ->
             freq out = freq (easterOverride (merged D options)) /\
             isFrequency (freq out)).
  { intros out ts H. apply parseOptions_inv in H.
    destruct H as (f & t & opts & Ha & ->).
    destruct (parseOptions_Return D now options f t opts Ha)
      as (ts' & _ & Ef & _).
    cbv zeta in Ef. apply anchored_Return in Ha.
    destruct Ha as (_ & Hf & _). rewrite Ef. split.
    - apply validFrequency_Some in Hf. now destruct Hf as [-> _].
    - apply validFrequency_isFrequency.
      apply validFrequency_Some in Hf. destruct Hf as [_ Hr].
      intros E. assert (E' : validFrequency (val f) = Some f)
        by (apply validFrequency_Some; now split).
      congruence. }
  assert (Hthrow : forall m,
             parseOptions D now options = Throw m -> InvalidFrequency m ->
             validFrequency (freq (easterOverride (merged D options))) =
               None /\
             m = ("Invalid frequency: " ++
                  toString (freq (easterOverride (merged D options))))
                   %string).
  { intros m Hm Hk. apply parseOptions_Throw, anchored_Throw in Hm.
    destruct Hm as [[Hne _]|[(_ & Hv & ->)|(_ & _ & -> & _)]].
    - contradiction.
    - now split.
    - exfalso. apply (proj2 (proj2 (kinds_disjoint _)) Hk). reflexivity. }
  split; intros He.
  - assert (Ef : freq (easterOverride (merged D options)) =
                 val RRule.YEARLY).
    { unfold easterOverride. now rewrite He. }
    split.
    + intros m Hm Hk. destruct (Hthrow m Hm Hk) as [Hv _].
      rewrite Ef in Hv. discriminate.
    + intros out ts H. destruct (Hout out ts H) as [-> _]. exact Ef.
  - assert (Ef : easterOverride (merged D options) = merged D options).
    { unfold easterOverride. now rewrite He. }
    rewrite Ef in *. repeat split.
    + intros (m & Hm & Hk). destruct (Hthrow m Hm Hk) as [Hv _].
      intros Hfr. apply validFrequency_isFrequency in Hfr. congruence.
    + intros Hn.
      exists ("Invalid frequency: " ++ toString (freq (merged D options)))
               %string.
      split; [|now eexists].
      apply parseOptions_Throw, anchored_Throw. right. left.
      rewrite Ef. repeat split; [assumption|].
      destruct (validFrequency (freq (merged D options))) eqn:E;
        [|reflexivity].
      exfalso. apply Hn, validFrequency_isFrequency. congruence.
    + intros m Hm Hk. now destruct (Hthrow m Hm Hk).
    + intros out ts H. now destruct (Hout out ts H).
Qed.

Lemma C7_frequency_witness :
  invalidKeys easterInput = [] /\
  freq (fields easterInput) = val 9 /\
  exists out ts,
    parseOptions defaults0 0 easterInput = Return (out, ts) /\
    freq out = val RRule.YEARLY.
Proof.
  split; [reflexivity|]. split; [reflexivity|].
  destruct (parseOptions defaults0 0 easterInput) as [[out ts]|m] eqn:E.
  - exists out, ts. split; [reflexivity|].
    exact (proj2 (proj1 (C7_frequency defaults0 0 easterInput eq_refl)
                    eq_refl) out ts E).
  - vm_compute in E. discriminate.
Defined.

(** C5.  On an input that passes the key and frequency checks and
    supplies a set-position constraint with elements [l] (a scalar
    counting as a one-element list): the call fails with the set-position
    error exactly when some element violates [v <> 0] and
    [-366 <= v <= 366]; a violation leaves no result at all, and without
    one the call succeeds.  The values 0 and 367 fail, -366 succeeds. *)
Theorem C5_set_position :
  (forall (D : Options) (now : Z) (options : RawOptions) (l : list Z),
      invalidKeys options = [] ->
      isFrequency (freq (easterOverride (merged D options))) ->
      setposElements (bysetpos (merged D options)) = Some l ->
      ((exists m,
           parseOptions D now options = Throw m /\ InvalidSetPosition m) <->
       Exists (fun v => ~ legalSetpos v) l) /\
      (Exists (fun v => ~ legalSetpos v) l ->
       forall r, parseOptions D now options <> Return r) /\
      (Forall legalSetpos l ->
       exists r, parseOptions D now options = Return r)) /\
  parseOptions defaults0 0 (setposInput 0) = Throw setposMessage /\
  parseOptions defaults0 0 (setposInput 367) = Throw setposMessage /\
  (exists r, parseOptions defaults0 0 (setposInput (-366)) = Return r).
Proof.
  split; [|repeat split; try reflexivity; eexists; vm_compute; reflexivity].
  intros D now options l Hkeys Hfreq Hl.
  apply validFrequency_isFrequency in Hfreq.
  assert (Hfail : Exists (fun v => ~ legalSetpos v) l ->
                  parseOptions D now options = Throw setposMessage).
  { intros Hex. apply parseOptions_Throw, anchored_Throw. right. right.
    repeat split; try assumption. now exists l. }
  repeat split.
  - intros (m & Hm & Hk). apply parseOptions_Throw, anchored_Throw in Hm.
    destruct Hm as [[Hne _]|[(_ & Hv & _)|(_ & _ & _ & l' & El & Hex)]].
    + contradiction.
    + contradiction.
    + rewrite Hl in El. now injection El as <-.
  - intros Hex. exists setposMessage. split; [now apply Hfail|reflexivity].
  - intros Hex r E. rewrite (Hfail Hex) in E. discriminate.
  - intros Hall.
    destruct (validFrequency (freq (easterOverride (merged D options))))
      as [f|] eqn:Ef; [|contradiction].
    assert (Ha : anchored D now options =
                 Return (f, startOf now (merged D options),
                         settled D now options)).
    { apply anchored_Return. repeat split; try assumption.
      intros l' El. rewrite Hl in El. now injection El as <-. }
    destruct (parseOptions_Return D now options _ _ _ Ha) as (ts & E & _).
    eexists. exact E.
Qed.

Lemma C5_set_position_witness :
  invalidKeys (setposInput 367) = [] /\
  setposElements (bysetpos (merged defaults0 (setposInput 367))) =
    Some [367] /\
  Exists (fun v => ~ legalSetpos v) [367] /\
  exists m,
    parseOptions defaults0 0 (setposInput 367) = Throw m /\
    InvalidSetPosition m.
Proof.
  assert (Hbad : Exists (fun v => ~ legalSetpos v) [367]).
  { left. unfold legalSetpos. lia. }
  split; [reflexivity|]. split; [reflexivity|]. split; [exact Hbad|].
  apply (proj1 C5_set_position defaults0 0 (setposInput 367) [367]).
  - reflexivity.
  - exists RRule.DAILY. split; [reflexivity|]. simpl. auto.
  - reflexivity.
  - exact Hbad.
Defined.

(** ** The start instant and the clock *)

Lemma anchored_clock (D : Options) (now1 now2 : Z) (options : RawOptions) :
  startOf now1 (merged D options) = startOf now2 (merged D options) ->
  anchored D now1 options = anchored D now2 options.
Proof.
  intros H. unfold anchored, initializeOptions.
  destruct (invalidKeys options); [|reflexivity].
  change (mergeDefaults D (keys options) (copyOptions options))
    with (merged D options).
  assert (Hs : forall now, startOf now (easterOverride (merged D options)) =
                           startOf now (merged D options)).
  { intros now. unfold startOf.
    now rewrite (proj1 (easterOverride_fields (merged D options))). }
  rewrite !Hs, H. reflexivity.
Qed.

Lemma parseOptions_clock (D : Options) (now1 now2 : Z)
  (options : RawOptions) :
  startOf now1 (merged D options) = startOf now2 (merged D options) ->
  parseOptions D now1 options = parseOptions D now2 options.
Proof.
  intros H. unfold parseOptions.
  now rewrite (anchored_clock D now1 now2 options H).
Qed.

Lemma merged_dtstart_supplied (D : Options) (options : RawOptions) :
  contains (keys options) "dtstart" = true ->
  dtstart (merged D options) = dtstart (fields options).
Proof.
  intros H. unfold merged, mergeDefaults, copyOptions. cbn [dtstart].
  unfold dflt, own. now rewrite H.
Qed.

(** C10.  When the input has its own [dtstart] holding a date, two calls
    with the same input made at different clock readings return the same
    result: equal options and equal timesets, or the same error. *)
Theorem C10_deterministic (D : Options) (now1 now2 : Z)
  (options : RawOptions) (t : Z) :
  contains (keys options) "dtstart" = true ->
  dtstart (fields options) = val t ->
  parseOptions D now1 options = parseOptions D now2 options.
Proof.
  intros Hk Hv. apply parseOptions_clock. unfold startOf.
  now rewrite (merged_dtstart_supplied D options Hk), Hv.
Qed.

Lemma C10_deterministic_witness :
  contains (keys dailyInput) "dtstart" = true /\
  dtstart (fields dailyInput) = val 951827696789 /\
  parseOptions defaults0 0 dailyInput =
  parseOptions defaults0 1700000000123 dailyInput.
Proof.
  split; [reflexivity|]. split; [reflexivity|].
  apply (C10_deterministic defaults0 0 1700000000123 dailyInput 951827696789);
    reflexivity.
Defined.

(** The clock is read only through the defaulted start instant, whole
    seconds of it. *)
Lemma parseOptions_clock_seconds (D : Options) (now1 now2 : Z)
  (options : RawOptions) :
  Date.setMilliseconds0 now1 = Date.setMilliseconds0 now2 ->
  parseOptions D now1 options = parseOptions D now2 options.
Proof.
  intros H. apply parseOptions_clock. unfold startOf.
  destruct (dtstart (merged D options)); congruence.
Qed.

Lemma millisecondModulo_nonneg (t : Z) :
  0 <= t -> millisecondModulo t = Date.getUTCMilliseconds t.
Proof.
  intros H. unfold millisecondModulo, Date.getUTCMilliseconds, Date.getTime.
  apply Z.rem_mod_nonneg; lia.
Qed.

Lemma millisecondModulo_default (now : Z) :
  millisecondModulo (Date.setMilliseconds0 now) = 0 /\
  Date.getUTCMilliseconds (Date.setMilliseconds0 now) = 0.
Proof.
  unfold millisecondModulo, Date.getUTCMilliseconds, Date.getTime,
    Date.setMilliseconds0.
  assert (E : now - now mod 1000 = 1000 * (now / 1000))
    by (pose proof (Z.div_mod now 1000); lia).
  rewrite E. split.
  - rewrite Z.mul_comm. apply Z.rem_mul. lia.
  - rewrite Z.mul_comm. apply Z.mod_mul. lia.
Qed.

(** Every entry of a produced timeset carries the extracted remainder
    [dtstart.getTime() % 1000]. *)
Lemma timeset_millisecond (D : Options) (now : Z) (options : RawOptions)
  (out : Options) (l : list dateutil.Time) :
  parseOptions D now options = Return (out, Some l) ->
  exists t,
    dtstart out = val t /\
    Forall (fun x => dateutil.millisecond x = millisecondModulo t) l.
Proof.
  intros H. pose proof H as Hi. apply parseOptions_inv in Hi.
  destruct Hi as (f & t & opts & Ha & ->).
  destruct (parseOptions_Return D now options f t opts Ha)
    as (ts & E & _ & Ed & _ & Hnone & Hsome).
  rewrite E in H. injection H as ->. exists t. split; [exact Ed|].
  destruct (Z.lt_ge_cases f RRule.HOURLY) as [Hlt|Hge].
  - destruct (Hsome Hlt) as (_ & _ & _ & El). injection El as ->.
    apply Forall_forall. intros x Hx.
    apply (Permutation_in _ (sort_Permutation _)) in Hx.
    revert x Hx. apply Forall_forall. apply crossProduct_millisecond.
  - specialize (Hnone Hge). discriminate.
Qed.

(** C9.  The start 1969-12-31T23:59:58.500Z has the time value -1500 and
    the millisecond component 500, and the timeset entry built from it
    carries the millisecond -500. *)
Theorem C9_remainder_before_epoch :
  Date.getUTCMilliseconds (-1500) = 500 /\
  millisecondModulo (-1500) = -500 /\
  exists out,
    parseOptions defaults0 0 (startInput RRule.DAILY (-1500)) =
      Return (out, Some [dateutil.mkTime 23 59 58 (-500)]) /\
    dtstart out = val (-1500).
Proof.
  split; [reflexivity|]. split; [reflexivity|].
  eexists. split; [vm_compute; reflexivity|reflexivity].
Qed.

(** ** The timeset *)

Lemma timeList_nil (v : js NumOrArr) (start : Z) :
  timeList v start = [] <-> v = val (Arr []).
Proof.
  unfold timeList. destruct v as [| |[x|l]]; split; try discriminate.
  - intros ->. reflexivity.
  - intros E. now injection E as ->.
Qed.

Lemma crossProduct_nil (hs mins ss : list Z) (ms : Z) :
  crossProduct hs mins ss ms = [] <-> hs = [] \/ mins = [] \/ ss = [].
Proof.
  rewrite <- !length_zero_iff_nil, crossProduct_length. nia.
Qed.

Lemma sort_nil (l : list dateutil.Time) : dateutil.sort l = [] <-> l = [].
Proof.
  split.
  - intros E. apply Permutation_nil. rewrite <- E.
    apply sort_Permutation.
  - intros ->. reflexivity.
Qed.

(** C8.  A produced timeset is sorted ascending; it is empty exactly when
    the hour, minute or second constraint of the merged options is an
    empty list, so it is non-empty whenever none of the three is. *)
Theorem C8_timeset_sorted (D : Options) (now : Z) (options : RawOptions)
  (out : Options) (l : list dateutil.Time) :
  parseOptions D now options = Return (out, Some l) ->
  StronglySorted dateutil.le l /\
  (l = [] <->
   byhour (merged D options) = val (Arr []) \/
   byminute (merged D options) = val (Arr []) \/
   bysecond (merged D options) = val (Arr [])).
Proof.
  intros H. pose proof H as Hi. apply parseOptions_inv in Hi.
  destruct Hi as (f & t & opts & Ha & ->).
  destruct (parseOptions_Return D now options f t opts Ha)
    as (ts & E & _ & _ & _ & Hnone & Hsome).
  rewrite E in H. injection H as ->.
  apply anchored_Return in Ha. destruct Ha as (_ & _ & _ & -> & _).
  destruct (settled_fields D now options)
    as (_ & _ & _ & _ & _ & _ & _ & _ & Eh & Em & Es).
  cbv zeta in Eh, Em, Es.
  destruct (Z.lt_ge_cases f RRule.HOURLY) as [Hlt|Hge].
  - destruct (Hsome Hlt) as (_ & _ & _ & El). injection El as ->.
    split; [apply sort_Sorted|].
    rewrite sort_nil, crossProduct_nil, !timeList_nil, Eh, Em, Es.
    reflexivity.
  - specialize (Hnone Hge). discriminate.
Qed.

Lemma C8_timeset_sorted_witness :
  exists out l,
    parseOptions defaults0 0 dailyInput = Return (out, Some l) /\
    StronglySorted dateutil.le l /\ l <> [].
Proof.
  destruct (parseOptions defaults0 0 dailyInput) as [[out [l|]]|m] eqn:E;
    try (vm_compute in E; discriminate).
  exists out, l. split; [reflexivity|].
  destruct (C8_timeset_sorted defaults0 0 dailyInput out l E) as [Hs Hn].
  split; [exact Hs|].
  intros El. apply Hn in El.
  destruct El as [El|[El|El]]; vm_compute in El; discriminate.
Defined.

(** The input [{freq: DAILY, byhour: []}] is accepted and the timeset
    returned for it is the empty list, not [null]. *)
Lemma C8_counterexample :
  exists out,
    parseOptions defaults0 0 emptyHourInput = Return (out, Some []) /\
    freq out = val RRule.DAILY.
Proof. eexists. split; [vm_compute; reflexivity|reflexivity]. Qed.

(** The timeset of a successful call.  The frequency of the output is one
    of the seven; from HOURLY on the timeset is [null]; below HOURLY the
    hour, minute and second constraints of the output are lists and the
    timeset is their cross product (hour outermost, second innermost)
    sorted ascending by (hour, minute, second, millisecond): a
    permutation of the product, sorted, every entry carrying
    [dtstart.getTime() % 1000], the value line 42 extracts.  DAILY with
    hours [9, 10], minutes [0, 30] and seconds [0] yields exactly four
    entries. *)
Theorem timeset_sorted_product :
  (forall (D : Options) (now : Z) (options : RawOptions) (out : Options)
          (ts : option (list dateutil.Time)),
      parseOptions D now options = Return (out, ts) ->
      exists f t,
        freq out = val f /\ dtstart out = val t /\
        In f [RRule.YEARLY; RRule.MONTHLY; RRule.WEEKLY; RRule.DAILY;
              RRule.HOURLY; RRule.MINUTELY; RRule.SECONDLY] /\
        (In f [RRule.HOURLY; RRule.MINUTELY; RRule.SECONDLY] -> ts = None) /\
        (In f [RRule.YEARLY; RRule.MONTHLY; RRule.WEEKLY; RRule.DAILY] ->
         exists hs mins ss l,
           byhour out = val (Arr hs) /\
           byminute out = val (Arr mins) /\
           bysecond out = val (Arr ss) /\
           ts = Some l /\
           l = dateutil.sort (crossProduct hs mins ss (millisecondModulo t)) /\
           Permutation l (crossProduct hs mins ss (millisecondModulo t)) /\
           StronglySorted dateutil.le l /\
           Forall (fun x => dateutil.millisecond x = millisecondModulo t) l))
  /\
  (forall now,
      exists out,
        parseOptions defaults0 now dailyInput =
          Return (out, Some [dateutil.mkTime 9 0 0 789;
                             dateutil.mkTime 9 30 0 789;
                             dateutil.mkTime 10 0 0 789;
                             dateutil.mkTime 10 30 0 789])).
Proof.
  split.
  - intros D now options out ts H. pose proof H as Hi.
    apply parseOptions_inv in Hi. destruct Hi as (f & t & opts & Ha & ->).
    destruct (parseOptions_Return D now options f t opts Ha)
      as (ts' & E & Ef & Ed & Hr & Hnone & Hsome).
    rewrite E in H. injection H as ->. exists f, t.
    unfold RRule.YEARLY, RRule.MONTHLY, RRule.WEEKLY, RRule.DAILY,
      RRule.HOURLY, RRule.MINUTELY, RRule.SECONDLY in *.
    repeat split; try assumption.
    + simpl. lia.
    + intros Hin. apply Hnone. simpl in Hin. lia.
    + intros Hin. assert (Hlt : f < 4) by (simpl in Hin; lia).
      destruct (Hsome Hlt) as (Eh & Em & Es & El).
      eexists _, _, _, _.
      repeat split; try eassumption; try reflexivity.
      * apply sort_Permutation.
      * apply sort_Sorted.
      * apply Forall_forall. intros x Hx.
        apply (Permutation_in _ (sort_Permutation _)) in Hx.
        revert x Hx. apply Forall_forall, crossProduct_millisecond.
  - intros now.
    rewrite (parseOptions_clock defaults0 now 0 dailyInput eq_refl).
    eexists. vm_compute. reflexivity.
Qed.

Lemma timeset_sorted_product_witness :
  exists out l,
    parseOptions defaults0 0 dailyInput = Return (out, Some l) /\
    freq out = val RRule.DAILY /\
    StronglySorted dateutil.le l /\
    Forall (fun x => dateutil.millisecond x = 789) l.
Proof.
  destruct (parseOptions defaults0 0 dailyInput) as [[out [l|]]|m] eqn:E;
    try (vm_compute in E; discriminate).
  exists out, l. split; [reflexivity|].
  destruct (proj1 timeset_sorted_product defaults0 0 dailyInput out
              (Some l) E)
    as (f & t & Ef & Et & _ & _ & Hcoarse).
  assert (Ef' : freq out = val RRule.DAILY)
    by (vm_compute in E; now injection E as <- _).
  assert (Et' : dtstart out = val 951827696789)
    by (vm_compute in E; now injection E as <- _).
  split; [exact Ef'|].
  rewrite Ef' in Ef. injection Ef as <-.
  rewrite Et' in Et. injection Et as <-.
  destruct Hcoarse as (hs & mins & ss & l' & _ & _ & _ & El & _ & _ & Hs & Hm).
  - simpl. auto.
  - injection El as <-. split; [exact Hs|exact Hm].
Defined.

(** C2.  For the start 1969-12-31T23:59:58.500Z, whose time value is
    -1500 and whose millisecond component is 500, DAILY with hours
    [9, 10], minutes [0, 30] and seconds [0] yields the four entries of
    the cross product in ascending order, but every one of them carries
    the millisecond -500 and none the start's 500. *)
Theorem C2_timeset_before_epoch :
  Date.getUTCMilliseconds (-1500) = 500 /\
  exists out l,
    parseOptions defaults0 0 beforeEpochInput = Return (out, Some l) /\
    freq out = val RRule.DAILY /\ dtstart out = val (-1500) /\
    l = [dateutil.mkTime 9 0 0 (-500); dateutil.mkTime 9 30 0 (-500);
         dateutil.mkTime 10 0 0 (-500); dateutil.mkTime 10 30 0 (-500)] /\
    Forall
      (fun x => dateutil.millisecond x <> Date.getUTCMilliseconds (-1500))
      l.
Proof.
  split; [reflexivity|].
  eexists _, _. split; [vm_compute; reflexivity|].
  split; [reflexivity|]. split; [reflexivity|]. split; [reflexivity|].
  repeat constructor; intros E; vm_compute in E; discriminate.
Qed.

(** ** The implicit derivation *)

Lemma Boolean_or_notEmpty (v : js NumOrArr) :
  Boolean v || notEmpty v = isPresent v.
Proof.
  destruct v as [| |[x|[|y l]]]; try reflexivity.
  simpl. now rewrite orb_true_r.
Qed.

Lemma noPositional_spec (o : Options) :
  noPositional o =
  negb (isPresent (byweekno o) || notEmpty (byyearday o) ||
        isPresent (bymonthday o) || notNull (byweekday o) ||
        notNull (byeaster o)).
Proof.
  unfold noPositional.
  rewrite <- (Boolean_or_notEmpty (byweekno o)).
  rewrite <- (Boolean_or_notEmpty (bymonthday o)).
  now rewrite !orb_assoc.
Qed.

Lemma notNull_isPresent {A : Type} (v : js A) :
  v <> undefined -> notNull v = isPresent v.
Proof. destruct v; [congruence|reflexivity..]. Qed.

Lemma noPositional_positionalPresent (o : Options) :
  byweekday o <> undefined -> byeaster o <> undefined ->
  noPositional o = negb (positionalPresent o).
Proof.
  intros Hw He. rewrite noPositional_spec. unfold positionalPresent.
  now rewrite (notNull_isPresent _ Hw), (notNull_isPresent _ He).
Qed.

Lemma Boolean_month (v : js NumOrArr) :
  negb (Boolean v) = monthAbsentOrZero v.
Proof.
  destruct v as [| |[x|l]]; try reflexivity.
  simpl. now rewrite negb_involutive.
Qed.

Lemma deriveFromStart_derived (f t : Z) (o : Options) :
  deriveFromStart f t o = derived f t o.
Proof.
  unfold deriveFromStart, derived. now rewrite Boolean_month.
Qed.

Lemma implicit_supplied (f t : Z) (o : Options) :
  (isPresent (bymonthday o) = true -> implicit f t o = o) /\
  (notNull (byweekday o) = true -> implicit f t o = o).
Proof.
  unfold implicit. rewrite noPositional_spec.
  split; intros ->; now rewrite ?orb_true_r.
Qed.

Lemma implicit_byweekday (f t : Z) (o : Options) :
  byweekday (implicit f t o) = byweekday o \/
  byweekday (implicit f t o) = val (BwArr [WdNum (dateutil.getWeekday t)]).
Proof.
  unfold implicit, deriveFromStart.
  repeat break_match; auto.
Qed.

Lemma doy_range (t : Z) : 0 <= Date.doy t <= 365.
Proof.
  unfold Date.doy, Date.yoe, Date.doe, Date.Day, Date.msPerDay.
  Z.div_mod_to_equations. lia.
Qed.

Lemma getUTCDate_range (t : Z) : 1 <= Date.getUTCDate t <= 31.
Proof.
  pose proof (doy_range t) as H.
  unfold Date.getUTCDate, Date.mp.
  generalize dependent (Date.doy t). intros d H.
  Z.div_mod_to_equations. lia.
Qed.

Lemma getUTCMonth_range (t : Z) : 0 <= Date.getUTCMonth t <= 11.
Proof.
  pose proof (doy_range t) as H.
  unfold Date.getUTCMonth, Date.mp.
  generalize dependent (Date.doy t). intros d H.
  destruct (Z.ltb_spec ((5 * d + 2) / 153) 10);
    Z.div_mod_to_equations; lia.
Qed.

Lemma monthdayBuckets_date (t : Z) :
  monthdayBuckets (val (Num (Date.getUTCDate t))) =
  ([Date.getUTCDate t], []).
Proof.
  unfold monthdayBuckets. pose proof (getUTCDate_range t) as H.
  now replace (Date.getUTCDate t <? 0) with false
    by (symmetry; apply Z.ltb_ge; lia).
Qed.

(** C3.  The month-day constraint that reaches the normaliser is the one
    of the merged options whenever one is present there.  Its buckets
    are: both empty when it is absent; for a list, the elements above 0
    and the elements below 0, each in their order, with every 0 dropped;
    for a scalar, the negative bucket alone when it is negative and the
    positive bucket alone otherwise.  The list [5, -5, 0] gives [5] and
    [-5]. *)
Theorem C3_month_day :
  (forall (D : Options) (now : Z) (options : RawOptions) (f t : Z)
          (opts : Options),
      anchored D now options = Return (f, t, opts) ->
      let v := bymonthday (implicit f t opts) in
      (isPresent (bymonthday (merged D options)) = true ->
       v = bymonthday (merged D options)) /\
      exists out ts,
        parseOptions D now options = Return (out, ts) /\
        bymonthday out = val (Arr (fst (monthdayBuckets v))) /\
        bynmonthday out = val (snd (monthdayBuckets v))) /\
  (forall l,
      monthdayBuckets (val (Arr l)) =
      (filter (fun x => 0 <? x) l, filter (fun x => x <? 0) l)) /\
  (forall x,
      (x < 0 -> monthdayBuckets (val (Num x)) = ([], [x])) /\
      (0 <= x -> monthdayBuckets (val (Num x)) = ([x], []))) /\
  monthdayBuckets undefined = ([], []) /\
  monthdayBuckets null = ([], []) /\
  (exists out ts,
      parseOptions defaults0 0 (monthdayInput RRule.DAILY (Arr [5; -5; 0])) =
        Return (out, ts) /\
      bymonthday out = val (Arr [5]) /\ bynmonthday out = val [-5]).
Proof.
  split; [|split; [|split; [|split; [|split]]]]; try reflexivity.
  - intros D now options f t opts H v. split.
    + intros Hp. subst v.
      apply anchored_Return in H. destruct H as (_ & _ & _ & -> & _).
      destruct (settled_fields D now options) as (_ & _ & _ & Em & _).
      cbv zeta in Em. rewrite <- Em in Hp.
      now rewrite (proj1 (implicit_supplied f t _) Hp).
    + destruct (parseOptions_Return D now options f t opts H)
        as (ts & E & _).
      destruct (normalizeFields_fields f t (implicit f t opts))
        as (_ & _ & _ & Ep & En & _).
      eexists _, ts. split; [exact E|]. split; [exact Ep|exact En].
  - intros x. split; intros Hx; unfold monthdayBuckets.
    + now replace (x <? 0) with true by (symmetry; apply Z.ltb_lt; lia).
    + now replace (x <? 0) with false by (symmetry; apply Z.ltb_ge; lia).
  - eexists _, _. split; [vm_compute; reflexivity|]. split; reflexivity.
Qed.

Lemma C3_month_day_witness :
  exists out ts,
    parseOptions defaults0 0 (monthdayInput RRule.MONTHLY (Num (-3))) =
      Return (out, ts) /\
    bymonthday out = val (Arr []) /\ bynmonthday out = val [-3].
Proof.
  assert (Ha : anchored defaults0 0 (monthdayInput RRule.MONTHLY (Num (-3))) =
               Return (RRule.MONTHLY, 951827696789,
                       settled defaults0 0
                         (monthdayInput RRule.MONTHLY (Num (-3)))))
    by (vm_compute; reflexivity).
  destruct (proj1 C3_month_day defaults0 0
              (monthdayInput RRule.MONTHLY (Num (-3))) _ _ _ Ha)
    as (Hv & out & ts & E & Ep & En).
  exists out, ts. split; [exact E|].
  rewrite (Hv eq_refl) in Ep, En. split; [exact Ep|exact En].
Defined.

(** C4.  The weekday constraint that reaches the normaliser is the one of
    the merged options whenever that is not [null].  With every
    [Weekday] well formed, each token is classified alone: a bare code,
    a [Weekday] without ordinal, and any [Weekday] under a frequency
    finer than MONTHLY give their code to the plain bucket; a [Weekday]
    with ordinal [n] under YEARLY or MONTHLY gives [[code, n]] to the
    ordinal bucket; the order is kept and a bucket that ends up empty is
    [null].  The second Tuesday lands in the ordinal bucket under MONTHLY
    and in the plain bucket under WEEKLY. *)
Theorem C4_weekday_tokens :
  (forall (D : Options) (now : Z) (options : RawOptions) (f t : Z)
          (opts : Options),
      anchored D now options = Return (f, t, opts) ->
      weekdaysWf (byweekday (merged D options)) ->
      let v := byweekday (implicit f t opts) in
      (notNull (byweekday (merged D options)) = true ->
       v = byweekday (merged D options)) /\
      exists out ts,
        parseOptions D now options = Return (out, ts) /\
        byweekday out = fst (weekdayBuckets f v) /\
        bynweekday out = snd (weekdayBuckets f v)) /\
  (exists out ts,
      parseOptions defaults0 0
        (weekdayInput RRule.MONTHLY (BwObj secondTuesday)) =
        Return (out, ts) /\
      byweekday out = null /\ bynweekday out = val [[1; 2]]) /\
  (exists out ts,
      parseOptions defaults0 0
        (weekdayInput RRule.WEEKLY (BwObj secondTuesday)) =
        Return (out, ts) /\
      byweekday out = val (BwArr [WdNum 1]) /\ bynweekday out = null) /\
  (exists out ts,
      parseOptions defaults0 0
        (weekdayInput RRule.YEARLY
           (BwArr [WdNum 0; WdObj secondTuesday;
                   WdObj (Weekday.mk 4 None)])) =
        Return (out, ts) /\
      byweekday out = val (BwArr [WdNum 0; WdNum 4]) /\
      bynweekday out = val [[1; 2]]).
Proof.
  split; [|repeat split; eexists _, _;
            (split; [vm_compute; reflexivity|split; reflexivity])].
  intros D now options f t opts Ha Hw v.
  pose proof Ha as Hr. apply anchored_Return in Hr.
  destruct Hr as (_ & Hf & _ & Ho & _).
  apply validFrequency_Some in Hf. destruct Hf as [_ Hf].
  destruct (settled_fields D now options)
    as (_ & _ & _ & _ & _ & _ & Ew & _).
  cbv zeta in Ew. rewrite <- Ho in Ew.
  split.
  - intros Hn. subst v. rewrite <- Ew in Hn.
    now rewrite (proj2 (implicit_supplied f t _) Hn).
  - destruct (parseOptions_Return D now options f t opts Ha) as (ts & E & _).
    assert (Hv : weekdaysWf v).
    { subst v. destruct (implicit_byweekday f t opts) as [-> | ->].
      - now rewrite Ew.
      - simpl. repeat constructor. }
    destruct (normalizeFields_weekday f t (implicit f t opts) Hf Hv)
      as [Ep Eq].
    eexists _, ts. split; [exact E|]. split; [exact Ep|exact Eq].
Qed.

Lemma C4_weekday_tokens_witness :
  exists out ts,
    parseOptions defaults0 0
      (weekdayInput RRule.MONTHLY
         (BwArr [WdObj secondTuesday; WdNum 6])) = Return (out, ts) /\
    byweekday out = val (BwArr [WdNum 6]) /\
    bynweekday out = val [[1; 2]].
Proof.
  set (input := weekdayInput RRule.MONTHLY
                  (BwArr [WdObj secondTuesday; WdNum 6])).
  assert (Ha : anchored defaults0 0 input =
               Return (RRule.MONTHLY, 951827696789,
                       settled defaults0 0 input))
    by (vm_compute; reflexivity).
  assert (Hw : weekdaysWf (byweekday (merged defaults0 input))).
  { simpl. repeat constructor. unfold Weekday.wf. simpl. discriminate. }
  destruct (proj1 C4_weekday_tokens defaults0 0 input _ _ _ Ha Hw)
    as (Hv & out & ts & E & Ep & Eq).
  exists out, ts. split; [exact E|].
  rewrite (Hv eq_refl) in Ep, Eq. split; [exact Ep|exact Eq].
Defined.

(** Away from an explicit [undefined] in the weekday and Easter fields,
    the derivation runs exactly when no positional constraint is present
    in the merged options, and then sets what the frequency asks for: the
    month (when it is absent or 0) and the month day for YEARLY, the
    month day for MONTHLY, the weekday for WEEKLY, nothing below. *)
Theorem implicit_derivation (D : Options) (now : Z) (options : RawOptions)
  (f t : Z) (opts : Options) :
  anchored D now options = Return (f, t, opts) ->
  byweekday (merged D options) <> undefined ->
  byeaster (merged D options) <> undefined ->
  let m := merged D options in
  let out := normalizeFields f t (implicit f t opts) in
  (positionalPresent m = true -> implicit f t opts = opts) /\
  (positionalPresent m = false -> implicit f t opts = derived f t opts) /\
  (exists ts, parseOptions D now options = Return (out, ts)) /\
  (positionalPresent m = false ->
   (f = RRule.YEARLY ->
    bymonth out =
      (if monthAbsentOrZero (bymonth m)
       then val (Arr [Date.getUTCMonth t + 1])
       else toArray (bymonth m)) /\
    bymonthday out = val (Arr [Date.getUTCDate t]) /\
    bynmonthday out = val []) /\
   (f = RRule.MONTHLY ->
    bymonth out = toArray (bymonth m) /\
    bymonthday out = val (Arr [Date.getUTCDate t]) /\
    bynmonthday out = val []) /\
   (f = RRule.WEEKLY ->
    byweekday out = val (BwArr [WdNum (dateutil.getWeekday t)]) /\
    bynweekday out = null) /\
   (In f [RRule.DAILY; RRule.HOURLY; RRule.MINUTELY; RRule.SECONDLY] ->
    implicit f t opts = opts)).
Proof.
  intros Ha Hw He m out.
  pose proof Ha as Hr. apply anchored_Return in Hr.
  destruct Hr as (_ & Hf & _ & Ho & _).
  apply validFrequency_Some in Hf. destruct Hf as [_ Hf].
  destruct (settled_fields D now options)
    as (_ & _ & Emo & Emd & Eyd & Ewn & Ewd & Eea & _).
  cbv zeta in Emo, Emd, Eyd, Ewn, Ewd, Eea.
  rewrite <- Ho in Emo, Emd, Eyd, Ewn, Ewd, Eea. fold m in Emo, Emd, Eyd,
    Ewn, Ewd, Eea, Hw, He.
  assert (Hp : positionalPresent opts = positionalPresent m).
  { unfold positionalPresent. now rewrite Emd, Eyd, Ewn, Ewd, Eea. }
  assert (Hn : noPositional opts = negb (positionalPresent m)).
  { rewrite <- Hp. apply noPositional_positionalPresent; congruence. }
  assert (Hrun : positionalPresent m = false ->
                 implicit f t opts = derived f t opts).
  { intros E. unfold implicit. rewrite Hn, E. simpl.
    apply deriveFromStart_derived. }
  split; [intros E; unfold implicit; now rewrite Hn, E|].
  split; [exact Hrun|].
  split.
  { destruct (parseOptions_Return D now options f t opts Ha) as (ts & E & _).
    now exists ts. }
  intros E. specialize (Hrun E).
  destruct (normalizeFields_fields f t (implicit f t opts))
    as (_ & _ & Nm & Np & Nn & _).
  fold out in Nm, Np, Nn. rewrite Hrun in Nm, Np, Nn.
  repeat split.
  - subst f. revert Nm. unfold derived. rewrite Z.eqb_refl.
    cbn [bymonth set_bymonthday]. rewrite Emo.
    destruct (monthAbsentOrZero (bymonth m)); intros ->; [reflexivity|].
    now rewrite Emo.
  - subst f. revert Np. unfold derived. rewrite Z.eqb_refl.
    cbn [bymonthday set_bymonthday]. rewrite monthdayBuckets_date.
    now intros ->.
  - subst f. revert Nn. unfold derived. rewrite Z.eqb_refl.
    cbn [bymonthday set_bymonthday]. rewrite monthdayBuckets_date.
    now intros ->.
  - subst f. rewrite Nm. change (derived RRule.MONTHLY t opts)
      with (set_bymonthday (val (Num (Date.getUTCDate t))) opts).
    cbn [bymonth set_bymonthday]. now rewrite Emo.
  - subst f. rewrite Np. change (derived RRule.MONTHLY t opts)
      with (set_bymonthday (val (Num (Date.getUTCDate t))) opts).
    cbn [bymonthday set_bymonthday]. now rewrite monthdayBuckets_date.
  - subst f. rewrite Nn. change (derived RRule.MONTHLY t opts)
      with (set_bymonthday (val (Num (Date.getUTCDate t))) opts).
    cbn [bymonthday set_bymonthday]. now rewrite monthdayBuckets_date.
  - subst f.
    assert (Hv : weekdaysWf (byweekday (implicit RRule.WEEKLY t opts))).
    { rewrite Hrun. simpl. repeat constructor. }
    destruct (normalizeFields_weekday RRule.WEEKLY t
                (implicit RRule.WEEKLY t opts) Hf Hv) as [Ep _].
    fold out in Ep. rewrite Ep, Hrun. reflexivity.
  - subst f.
    assert (Hv : weekdaysWf (byweekday (implicit RRule.WEEKLY t opts))).
    { rewrite Hrun. simpl. repeat constructor. }
    destruct (normalizeFields_weekday RRule.WEEKLY t
                (implicit RRule.WEEKLY t opts) Hf Hv) as [_ Eq].
    fold out in Eq. rewrite Eq, Hrun. reflexivity.
  - intros Hin. rewrite Hrun. unfold derived.
    unfold RRule.YEARLY, RRule.MONTHLY, RRule.WEEKLY, RRule.DAILY,
      RRule.HOURLY, RRule.MINUTELY, RRule.SECONDLY in *.
    simpl in Hin.
    replace (f =? 0) with false by (symmetry; apply Z.eqb_neq; lia).
    replace (f =? 1) with false by (symmetry; apply Z.eqb_neq; lia).
    replace (f =? 2) with false by (symmetry; apply Z.eqb_neq; lia).
    reflexivity.
Qed.

Lemma implicit_derivation_witness :
  exists out ts,
    parseOptions defaults0 0 (startInput RRule.YEARLY 951827696789) =
      Return (out, ts) /\
    bymonth out = val (Arr [2]) /\
    bymonthday out = val (Arr [29]) /\
    bynmonthday out = val [].
Proof.
  set (input := startInput RRule.YEARLY 951827696789).
  assert (Ha : anchored defaults0 0 input =
               Return (RRule.YEARLY, 951827696789,
                       settled defaults0 0 input))
    by (vm_compute; reflexivity).
  assert (Hw : byweekday (merged defaults0 input) <> undefined)
    by (vm_compute; discriminate).
  assert (He : byeaster (merged defaults0 input) <> undefined)
    by (vm_compute; discriminate).
  assert (Hp : positionalPresent (merged defaults0 input) = false)
    by (vm_compute; reflexivity).
  destruct (implicit_derivation defaults0 0 input _ _ _ Ha Hw He)
    as (_ & _ & (ts & E) & Hd).
  destruct (Hd Hp) as (Hy & _). destruct (Hy eq_refl) as (Em & Ep & En).
  eexists _, ts. split; [exact E|]. split; [exact Em|].
  split; [exact Ep|exact En].
Defined.

(** C1.  The input [{freq: WEEKLY, dtstart, byweekday: undefined}] has no
    positional constraint present in the merged options, yet the
    derivation is skipped ([undefined !== null]): the output has no
    weekday constraint, while the same input without the key gets the
    weekday of the start instant (2000-02-29, a Tuesday). *)
Theorem C1_undefined_weekday_skips_derivation :
  byweekday (merged defaults0 undefinedWeekdayInput) = undefined /\
  positionalPresent (merged defaults0 undefinedWeekdayInput) = false /\
  noPositional (merged defaults0 undefinedWeekdayInput) = false /\
  (exists out ts,
      parseOptions defaults0 0 undefinedWeekdayInput = Return (out, ts) /\
      freq out = val RRule.WEEKLY /\
      byweekday out = undefined /\ bynweekday out = null) /\
  (exists out ts,
      parseOptions defaults0 0 (startInput RRule.WEEKLY 951827696789) =
        Return (out, ts) /\
      freq out = val RRule.WEEKLY /\
      byweekday out = val (BwArr [WdNum 1]) /\ bynweekday out = null).
Proof.
  repeat split; try reflexivity;
    eexists _, _; (split; [vm_compute; reflexivity|repeat split]).
Qed.

(** * Further properties of [parseOptions] *)

(** ** Fields the later stages leave alone *)

Lemma implicit_frame (f t : Z) (o : Options) :
  interval (implicit f t o) = interval o /\
  wkst (implicit f t o) = wkst o /\
  count (implicit f t o) = count o /\
  until (implicit f t o) = until o /\
  tzid (implicit f t o) = tzid o /\
  bysetpos (implicit f t o) = bysetpos o /\
  byyearday (implicit f t o) = byyearday o /\
  byweekno (implicit f t o) = byweekno o /\
  byeaster (implicit f t o) = byeaster o.
Proof.
  unfold implicit, deriveFromStart.
  repeat break_match; repeat split; reflexivity.
Qed.

Lemma normalizeMonthday_frame (o : Options) :
  interval (normalizeMonthday o) = interval o /\
  wkst (normalizeMonthday o) = wkst o /\
  count (normalizeMonthday o) = count o /\
  until (normalizeMonthday o) = until o /\
  tzid (normalizeMonthday o) = tzid o /\
  bysetpos (normalizeMonthday o) = bysetpos o /\
  byyearday (normalizeMonthday o) = byyearday o /\
  byweekno (normalizeMonthday o) = byweekno o /\
  byeaster (normalizeMonthday o) = byeaster o.
Proof.
  unfold normalizeMonthday.
  destruct (bymonthday o) as [| |[x|l]]; try destruct (x <? 0);
    repeat split; reflexivity.
Qed.

Lemma normalizeWeekday_frame (f : Z) (o : Options) :
  interval (normalizeWeekday f o) = interval o /\
  wkst (normalizeWeekday f o) = wkst o /\
  count (normalizeWeekday f o) = count o /\
  until (normalizeWeekday f o) = until o /\
  tzid (normalizeWeekday f o) = tzid o /\
  bysetpos (normalizeWeekday f o) = bysetpos o /\
  byyearday (normalizeWeekday f o) = byyearday o /\
  byweekno (normalizeWeekday f o) = byweekno o /\
  byeaster (normalizeWeekday f o) = byeaster o.
Proof.
  unfold normalizeWeekday.
  destruct (byweekday o) as [| |[c|w|l]];
    try destruct (classifyWeekday f w); repeat split; reflexivity.
Qed.

Lemma normalizeFields_frame (f t : Z) (o : Options) :
  interval (normalizeFields f t o) = interval o /\
  wkst (normalizeFields f t o) = wkst o /\
  count (normalizeFields f t o) = count o /\
  until (normalizeFields f t o) = until o /\
  tzid (normalizeFields f t o) = tzid o /\
  bysetpos (normalizeFields f t o) = bysetpos o /\
  byyearday (normalizeFields f t o) = toArray (byyearday o) /\
  byweekno (normalizeFields f t o) = toArray (byweekno o) /\
  byeaster (normalizeFields f t o) = byeaster o.
Proof.
  unfold normalizeFields. cbv zeta.
  set (X := set_byyearday (toArray (byyearday o))
              (set_bymonth (toArray (bymonth o)) o)).
  set (Y := set_byweekno (toArray (byweekno (normalizeMonthday X)))
              (normalizeMonthday X)).
  destruct (normalizeWeekday_frame f Y)
    as (Wi & Ww & Wc & Wu & Wt & Ws & Wy & Wn & We).
  destruct (normalizeMonthday_frame X)
    as (Mi & Mw & Mc & Mu & Mt & Ms & My & Mn & Me).
  change (interval Y) with (interval (normalizeMonthday X)) in Wi.
  change (wkst Y) with (wkst (normalizeMonthday X)) in Ww.
  change (count Y) with (count (normalizeMonthday X)) in Wc.
  change (until Y) with (until (normalizeMonthday X)) in Wu.
  change (tzid Y) with (tzid (normalizeMonthday X)) in Wt.
  change (bysetpos Y) with (bysetpos (normalizeMonthday X)) in Ws.
  change (byyearday Y) with (byyearday (normalizeMonthday X)) in Wy.
  change (byweekno Y)
    with (toArray (byweekno (normalizeMonthday X))) in Wn.
  change (byeaster Y) with (byeaster (normalizeMonthday X)) in We.
  rewrite Mn in Wn.
  repeat split.
  - exact (eq_trans Wi Mi).
  - exact (eq_trans Ww Mw).
  - exact (eq_trans Wc Mc).
  - exact (eq_trans Wu Mu).
  - exact (eq_trans Wt Mt).
  - exact (eq_trans Ws Ms).
  - exact (eq_trans Wy My).
  - exact Wn.
  - exact (eq_trans We Me).
Qed.

Lemma promoteSetpos_frame (o : Options) :
  interval (promoteSetpos o) = interval o /\
  count (promoteSetpos o) = count o /\
  until (promoteSetpos o) = until o /\
  tzid (promoteSetpos o) = tzid o /\
  wkst (promoteSetpos o) = wkst o /\
  bysetpos (promoteSetpos o) = toArray (bysetpos o).
Proof.
  unfold promoteSetpos, toArray.
  destruct (bysetpos o) as [| |[x|l]] eqn:E;
    repeat split; try reflexivity; now rewrite E.
Qed.

Lemma resolveWkst_frame (o : Options) :
  interval (resolveWkst o) = interval o /\
  count (resolveWkst o) = count o /\
  until (resolveWkst o) = until o /\
  tzid (resolveWkst o) = tzid o /\
  wkst (resolveWkst o) = val (WdNum (wkstCode (wkst o))).
Proof.
  unfold resolveWkst, wkstCode.
  destruct (wkst o) as [| |[c|w]] eqn:E;
    repeat split; try reflexivity; now rewrite E.
Qed.

Lemma easterOverride_frame (o : Options) :
  interval (easterOverride o) = interval o /\
  count (easterOverride o) = count o /\
  until (easterOverride o) = until o /\
  tzid (easterOverride o) = tzid o /\
  wkst (easterOverride o) = wkst o.
Proof.
  unfold easterOverride. destruct (isPresent (byeaster o));
    repeat split; reflexivity.
Qed.

Lemma settled_frame (D : Options) (now : Z) (options : RawOptions) :
  let m := merged D options in
  let o := settled D now options in
  interval o = interval m /\ count o = count m /\ until o = until m /\
  tzid o = tzid m /\
  wkst o = val (WdNum (wkstCode (wkst m))) /\
  bysetpos o = toArray (bysetpos m).
Proof.
  intros m o. subst o. unfold settled. fold m.
  set (e := easterOverride m).
  set (W := resolveWkst (set_dtstart (val (startOf now e)) e)).
  destruct (promoteSetpos_frame W) as (Pi & Pc & Pu & Pt & Pw & Ps).
  destruct (resolveWkst_frame (set_dtstart (val (startOf now e)) e))
    as (Ri & Rc & Ru & Rt & Rw).
  destruct (easterOverride_frame m) as (Ei & Ec & Eu & Et & Ew).
  fold W in Ri, Rc, Ru, Rt, Rw. fold e in Ei, Ec, Eu, Et, Ew.
  cbn [interval count until tzid wkst set_dtstart] in Ri, Rc, Ru, Rt, Rw.
  pose proof (bysetpos_before_check D now options) as Hb.
  cbv zeta in Hb. fold m in Hb. fold e in Hb. fold W in Hb.
  rewrite Pi, Pc, Pu, Pt, Pw, Ps, Ri, Rc, Ru, Rt, Rw, Hb.
  rewrite Ei, Ec, Eu, Et, Ew. repeat split.
Qed.

(** The fields of a successful output that are read off the merged
    options alone. *)
Lemma parseOptions_frame (D : Options) (now : Z) (options : RawOptions)
  (out : Options) (ts : option (list dateutil.Time)) :
  parseOptions D now options = Return (out, ts) ->
  let m := merged D options in
  interval out = interval m /\ count out = count m /\
  until out = until m /\ tzid out = tzid m /\
  byeaster out = byeaster m /\
  wkst out = val (WdNum (wkstCode (wkst m))) /\
  bysetpos out = toArray (bysetpos m) /\
  byyearday out = toArray (byyearday m) /\
  byweekno out = toArray (byweekno m) /\
  (forall l, setposElements (bysetpos m) = Some l -> Forall legalSetpos l).
Proof.
  intros H m. apply parseOptions_inv in H.
  destruct H as (f & t & opts & Ha & ->).
  apply anchored_Return in Ha. destruct Ha as (_ & _ & _ & -> & Hl).
  destruct (normalizeFields_frame f t (implicit f t (settled D now options)))
    as (Ni & Nw & Nc & Nu & Nt & Ns & Ny & Nn & Ne).
  destruct (implicit_frame f t (settled D now options))
    as (Ii & Iw & Ic & Iu & It & Is & Iy & In' & Ie).
  destruct (settled_frame D now options) as (Si & Sc & Su & St & Sw & Ss).
  destruct (settled_fields D now options)
    as (_ & _ & _ & _ & Sy & Sn & _ & Se & _).
  cbv zeta in *. fold m in Si, Sc, Su, St, Sw, Ss, Sy, Sn, Se, Hl.
  rewrite Ni, Nw, Nc, Nu, Nt, Ns, Ny, Nn, Ne.
  rewrite Ii, Iw, Ic, Iu, It, Is, Iy, In', Ie.
  rewrite Si, Sc, Su, St, Sw, Ss, Sy, Sn, Se.
  repeat split. exact Hl.
Qed.

(** ** Outcomes *)

(** X1.  A call returns exactly when every key is recognised, the
    frequency (YEARLY when an Easter offset is present) is one of the
    seven, and every element of a supplied set-position constraint is
    legal.  Otherwise it throws one of three errors and nothing else, the
    key error before the frequency error before the set-position error. *)
Theorem X1_outcomes (D : Options) (now : Z) (options : RawOptions) :
  ((exists r, parseOptions D now options = Return r) <->
   invalidKeys options = [] /\
   isFrequency (freq (easterOverride (merged D options))) /\
   (forall l, setposElements (bysetpos (merged D options)) = Some l ->
              Forall legalSetpos l)) /\
  (forall m,
      parseOptions D now options = Throw m ->
      (InvalidOptionKey m /\ invalidKeys options <> []) \/
      (InvalidFrequency m /\ invalidKeys options = [] /\
       ~ isFrequency (freq (easterOverride (merged D options)))) \/
      (InvalidSetPosition m /\ invalidKeys options = [] /\
       isFrequency (freq (easterOverride (merged D options))) /\
       exists l, setposElements (bysetpos (merged D options)) = Some l /\
                 Exists (fun v => ~ legalSetpos v) l)).
Proof.
  split; [split|].
  - intros ([out ts] & H). apply parseOptions_inv in H.
    destruct H as (f & t & opts & Ha & _). apply anchored_Return in Ha.
    destruct Ha as (Hk & Hf & _ & _ & Hl).
    repeat split; try assumption.
    apply validFrequency_isFrequency. congruence.
  - intros (Hk & Hf & Hl). apply validFrequency_isFrequency in Hf.
    destruct (validFrequency (freq (easterOverride (merged D options))))
      as [f|] eqn:Ef; [|contradiction].
    assert (Ha : anchored D now options =
                 Return (f, startOf now (merged D options),
                         settled D now options)).
    { apply anchored_Return. repeat split; assumption. }
    destruct (parseOptions_Return D now options _ _ _ Ha) as (ts & E & _).
    eexists. exact E.
  - intros m Hm. apply parseOptions_Throw, anchored_Throw in Hm.
    destruct Hm as [[Hne ->]|[(Hk & Hv & ->)|(Hk & Hv & -> & Hl)]].
    + left. split; [now eexists|assumption].
    + right. left. split; [now eexists|]. split; [assumption|].
      intros Hf. apply validFrequency_isFrequency in Hf. congruence.
    + right. right. split; [reflexivity|]. split; [assumption|].
      split; [now apply validFrequency_isFrequency|assumption].
Qed.

(** ** Fields passed through *)

Lemma merged_lookup (D : Options) (options : RawOptions) :
  let ks := keys options in
  let o := fields options in
  let m := merged D options in
  interval m = (if contains ks "interval" then interval o else interval D) /\
  count m = (if contains ks "count" then count o else count D) /\
  until m = (if contains ks "until" then until o else until D) /\
  tzid m = (if contains ks "tzid" then tzid o else tzid D) /\
  byeaster m = (if contains ks "byeaster" then byeaster o else byeaster D) /\
  wkst m = (if contains ks "wkst" then wkst o else wkst D).
Proof.
  intros ks o m. subst m. unfold merged, mergeDefaults, copyOptions.
  cbn [interval count until tzid byeaster wkst]. unfold dflt, own.
  fold ks. fold o.
  destruct (contains ks "interval"), (contains ks "count"),
    (contains ks "until"), (contains ks "tzid"), (contains ks "byeaster"),
    (contains ks "wkst"); repeat split; reflexivity.
Qed.

(** X2.  The interval, count, until, time-zone and Easter-offset fields
    of a successful output are the caller's own values when the key is an
    own key of the input (an explicit [null] or [undefined] included)
    and the defaults otherwise; no stage rewrites them. *)
Theorem X2_passed_through (D : Options) (now : Z) (options : RawOptions)
  (out : Options) (ts : option (list dateutil.Time)) :
  parseOptions D now options = Return (out, ts) ->
  let ks := keys options in
  let o := fields options in
  interval out = (if contains ks "interval" then interval o else interval D)
  /\
  count out = (if contains ks "count" then count o else count D) /\
  until out = (if contains ks "until" then until o else until D) /\
  tzid out = (if contains ks "tzid" then tzid o else tzid D) /\
  byeaster out =
    (if contains ks "byeaster" then byeaster o else byeaster D).
Proof.
  intros H ks o.
  destruct (parseOptions_frame D now options out ts H)
    as (Ei & Ec & Eu & Et & Ee & _).
  destruct (merged_lookup D options) as (Mi & Mc & Mu & Mt & Me & _).
  cbv zeta in *. rewrite Ei, Ec, Eu, Et, Ee.
  repeat split; assumption.
Qed.

Lemma X2_passed_through_witness :
  exists out ts,
    parseOptions defaults0 0 (setposInput 5) = Return (out, ts) /\
    interval out = val 1 /\ count out = null /\ byeaster out = null.
Proof.
  destruct (parseOptions defaults0 0 (setposInput 5)) as [[out ts]|m] eqn:E;
    [|vm_compute in E; discriminate].
  exists out, ts. split; [reflexivity|].
  destruct (X2_passed_through defaults0 0 (setposInput 5) out ts E)
    as (Ei & Ec & _ & _ & Ee).
  split; [exact Ei|]. split; [exact Ec|exact Ee].
Defined.

(** X3.  The week start of a successful output is always a bare number:
    Monday's code 0 when the merged value is absent, the number itself
    when it is one, and the weekday code of a [Weekday], whose ordinal is
    dropped. *)
Theorem X3_week_start (D : Options) (now : Z) (options : RawOptions)
  (out : Options) (ts : option (list dateutil.Time)) :
  parseOptions D now options = Return (out, ts) ->
  wkst out = val (WdNum (wkstCode (wkst (merged D options)))) /\
  (isPresent (wkst (merged D options)) = false -> wkst out = val (WdNum 0)) /\
  (forall c, wkst (merged D options) = val (WdNum c) ->
             wkst out = val (WdNum c)) /\
  (forall w, wkst (merged D options) = val (WdObj w) ->
             wkst out = val (WdNum (Weekday.weekday w))).
Proof.
  intros H.
  destruct (parseOptions_frame D now options out ts H)
    as (_ & _ & _ & _ & _ & Ew & _).
  cbv zeta in Ew. rewrite Ew. repeat split.
  - destruct (wkst (merged D options)); [reflexivity..|discriminate].
  - now intros c ->.
  - now intros w ->.
Qed.

Lemma X3_week_start_witness :
  exists out ts,
    parseOptions defaults0 0
      (wkstInput RRule.WEEKLY 951827696789 (WdObj secondTuesday)) =
      Return (out, ts) /\
    wkst out = val (WdNum 1).
Proof.
  set (input := wkstInput RRule.WEEKLY 951827696789 (WdObj secondTuesday)).
  destruct (parseOptions defaults0 0 input) as [[out ts]|m] eqn:E;
    [|vm_compute in E; discriminate].
  exists out, ts. split; [reflexivity|].
  exact (proj1 (X3_week_start defaults0 0 input out ts E)).
Defined.

(** ** Scalars promoted to lists *)

Lemma toArray_spec (v : js NumOrArr) :
  notScalar (toArray v) /\
  elements (toArray v) = elements v /\
  isPresent (toArray v) = isPresent v /\
  (notScalar v -> toArray v = v).
Proof.
  destruct v as [| |[x|l]]; simpl; repeat split; auto; contradiction.
Qed.

(** X4.  In a successful output the set-position, year-day and
    week-number constraints are never bare numbers: each is absent
    exactly when the merged one is, holds the same elements, and is the
    merged value itself unless that was a scalar; every element of the
    set-position list is legal. *)
Theorem X4_promoted (D : Options) (now : Z) (options : RawOptions)
  (out : Options) (ts : option (list dateutil.Time)) :
  parseOptions D now options = Return (out, ts) ->
  let m := merged D options in
  (notScalar (bysetpos out) /\
   elements (bysetpos out) = elements (bysetpos m) /\
   isPresent (bysetpos out) = isPresent (bysetpos m) /\
   (notScalar (bysetpos m) -> bysetpos out = bysetpos m) /\
   Forall legalSetpos (elements (bysetpos out))) /\
  (notScalar (byyearday out) /\
   elements (byyearday out) = elements (byyearday m) /\
   isPresent (byyearday out) = isPresent (byyearday m) /\
   (notScalar (byyearday m) -> byyearday out = byyearday m)) /\
  (notScalar (byweekno out) /\
   elements (byweekno out) = elements (byweekno m) /\
   isPresent (byweekno out) = isPresent (byweekno m) /\
   (notScalar (byweekno m) -> byweekno out = byweekno m)).
Proof.
  intros H m.
  destruct (parseOptions_frame D now options out ts H)
    as (_ & _ & _ & _ & _ & _ & Es & Ey & En & Hl).
  cbv zeta in *. fold m in Es, Ey, En, Hl. rewrite Es, Ey, En.
  destruct (toArray_spec (bysetpos m)) as (S1 & S2 & S3 & S4).
  destruct (toArray_spec (byyearday m)) as (Y1 & Y2 & Y3 & Y4).
  destruct (toArray_spec (byweekno m)) as (N1 & N2 & N3 & N4).
  repeat split; try assumption.
  rewrite S2. destruct (bysetpos m) as [| |[x|l]]; simpl;
    [constructor|constructor|now apply Hl|now apply Hl].
Qed.

Lemma X4_promoted_witness :
  exists out ts,
    parseOptions defaults0 0 (setposInput (-366)) = Return (out, ts) /\
    bysetpos out = val (Arr [-366]) /\ byyearday out = null.
Proof.
  destruct (parseOptions defaults0 0 (setposInput (-366)))
    as [[out ts]|m] eqn:E; [|vm_compute in E; discriminate].
  exists out, ts. split; [reflexivity|].
  destruct (X4_promoted defaults0 0 (setposInput (-366)) out ts E)
    as ((S1 & S2 & S3 & _) & (_ & _ & _ & Y4) & _).
  split.
  - change (elements (bysetpos (merged defaults0 (setposInput (-366)))))
      with [-366] in S2.
    change (isPresent (bysetpos (merged defaults0 (setposInput (-366)))))
      with true in S3.
    destruct (bysetpos out) as [| |[x|l]]; try discriminate;
      [contradiction|]. simpl in S2. now rewrite S2.
  - exact (Y4 I).
Defined.

(** ** The output field by field *)

Lemma Options_ext (a b : Options) :
  freq a = freq b -> dtstart a = dtstart b -> interval a = interval b ->
  wkst a = wkst b -> count a = count b -> until a = until b ->
  tzid a = tzid b -> bysetpos a = bysetpos b -> bymonth a = bymonth b ->
  bymonthday a = bymonthday b -> bynmonthday a = bynmonthday b ->
  byyearday a = byyearday b -> byweekno a = byweekno b ->
  byweekday a = byweekday b -> bynweekday a = bynweekday b ->
  byhour a = byhour b -> byminute a = byminute b ->
  bysecond a = bysecond b -> byeaster a = byeaster b -> a = b.
Proof.
  destruct a, b. cbn [freq dtstart interval wkst count until tzid bysetpos
    bymonth bymonthday bynmonthday byyearday byweekno byweekday bynweekday
    byhour byminute bysecond byeaster].
  intros. subst. reflexivity.
Qed.

Lemma implicit_proj (f t : Z) (o : Options) :
  bymonth (implicit f t o) = monthAfter f t o /\
  bymonthday (implicit f t o) = monthdayAfter f t o /\
  byweekday (implicit f t o) = weekdayAfter f t o.
Proof.
  unfold implicit, deriveFromStart, monthAfter, monthdayAfter, weekdayAfter.
  destruct (noPositional o); [|repeat split; reflexivity].
  cbn [andb].
  destruct (Z.eqb_spec f RRule.YEARLY) as [->|Hy].
  - destruct (negb (Boolean (bymonth o))); repeat split; reflexivity.
  - destruct (Z.eqb_spec f RRule.MONTHLY) as [->|Hm];
      [repeat split; reflexivity|].
    destruct (Z.eqb_spec f RRule.WEEKLY) as [->|Hw];
      repeat split; reflexivity.
Qed.

Lemma normalizeWeekday_proj (f : Z) (o : Options) :
  byweekday (normalizeWeekday f o) = fst (weekdayOut f (byweekday o)) /\
  bynweekday (normalizeWeekday f o) = snd (weekdayOut f (byweekday o)).
Proof.
  unfold normalizeWeekday, weekdayOut.
  destruct (byweekday o) as [| |[c|w|l]] eqn:E;
    try destruct (classifyWeekday f w);
    split; try reflexivity; cbn; now rewrite E.
Qed.

Lemma normalizeFields_weekdayOut (f t : Z) (o : Options) :
  byweekday (normalizeFields f t o) = fst (weekdayOut f (byweekday o)) /\
  bynweekday (normalizeFields f t o) = snd (weekdayOut f (byweekday o)).
Proof.
  unfold normalizeFields. cbv zeta.
  set (X := set_byyearday (toArray (byyearday o))
              (set_bymonth (toArray (bymonth o)) o)).
  set (Y := set_byweekno (toArray (byweekno (normalizeMonthday X)))
              (normalizeMonthday X)).
  assert (E : byweekday Y = byweekday o).
  { change (byweekday Y) with (byweekday (normalizeMonthday X)).
    now rewrite (proj1 (proj2 (proj2 (proj2
                  (normalizeMonthday_untouched X))))). }
  destruct (normalizeWeekday_proj f Y) as [Ep Eo].
  rewrite E in Ep, Eo.
  split; [exact Ep|exact Eo].
Qed.

Lemma noPositional_settled (D : Options) (now : Z) (options : RawOptions) :
  noPositional (settled D now options) = noPositional (merged D options).
Proof.
  destruct (settled_fields D now options)
    as (_ & _ & _ & Emd & Eyd & Ewn & Ewd & Eea & _).
  cbv zeta in *. unfold noPositional.
  now rewrite Emd, Eyd, Ewn, Ewd, Eea.
Qed.

(** The output of a successful call, field by field. *)
Lemma closed_form (D : Options) (now : Z) (options : RawOptions)
  (f t : Z) (opts : Options) :
  anchored D now options = Return (f, t, opts) ->
  normalizeFields f t (implicit f t opts) = canonical f t (merged D options).
Proof.
  intros Ha.
  destruct (parseOptions_Return D now options f t opts Ha)
    as (ts & E & Ef & Ed & _).
  assert (Hp : parseOptions D now options =
               Return (normalizeFields f t (implicit f t opts), ts))
    by exact E.
  destruct (parseOptions_frame D now options _ _ Hp)
    as (Pi & Pc & Pu & Pt & Pe & Pw & Ps & Py & Pn & _).
  cbv zeta in Ef, Ed, Pi, Pc, Pu, Pt, Pe, Pw, Ps, Py, Pn.
  apply anchored_Return in Ha. destruct Ha as (_ & _ & _ & -> & _).
  set (o := settled D now options) in *.
  destruct (normalizeFields_fields f t (implicit f t o))
    as (_ & _ & Nm & Np & Nn & Nh & Nmi & Ns).
  destruct (normalizeFields_weekdayOut f t (implicit f t o)) as [Nw Nq].
  destruct (implicit_proj f t o) as (Im & Id & Iw).
  destruct (implicit_untouched f t o) as (_ & _ & Ih & Imi & Is).
  destruct (settled_fields D now options)
    as (_ & _ & Smo & Smd & _ & _ & Swd & _ & Sh & Smi & Ss).
  cbv zeta in Smo, Smd, Swd, Sh, Smi, Ss. fold o in Smo, Smd, Swd, Sh, Smi, Ss.
  pose proof (noPositional_settled D now options) as Hn. fold o in Hn.
  assert (Em : monthAfter f t o = monthAfter f t (merged D options))
    by (unfold monthAfter; now rewrite Hn, Smo).
  assert (Emd : monthdayAfter f t o = monthdayAfter f t (merged D options))
    by (unfold monthdayAfter; now rewrite Hn, Smd).
  assert (Ew : weekdayAfter f t o = weekdayAfter f t (merged D options))
    by (unfold weekdayAfter; now rewrite Hn, Swd).
  apply Options_ext; unfold canonical;
    cbn [freq dtstart interval wkst count until tzid bysetpos bymonth
         bymonthday bynmonthday byyearday byweekno byweekday bynweekday
         byhour byminute bysecond byeaster];
    try assumption.
  - now rewrite Nm, Im, Em.
  - now rewrite Np, Id, Emd.
  - now rewrite Nn, Id, Emd.
  - now rewrite Nw, Iw, Ew.
  - now rewrite Nq, Iw, Ew.
  - now rewrite Nh, Ih, Sh.
  - now rewrite Nmi, Imi, Smi.
  - now rewrite Ns, Is, Ss.
Qed.

Lemma parseOptions_canonical (D : Options) (now : Z) (options : RawOptions)
  (out : Options) (ts : option (list dateutil.Time)) :
  parseOptions D now options = Return (out, ts) ->
  exists f,
    validFrequency (freq (easterOverride (merged D options))) = Some f /\
    0 <= f <= 6 /\
    out = canonical f (startOf now (merged D options)) (merged D options) /\
    buildTimeset f (millisecondModulo (startOf now (merged D options))) out =
      Return ts.
Proof.
  intros H. pose proof H as Hi. apply parseOptions_inv in Hi.
  destruct Hi as (f & t & opts & Ha & Eo).
  pose proof (closed_form D now options f t opts Ha) as Ec.
  pose proof Ha as Hr. apply anchored_Return in Hr.
  destruct Hr as (_ & Hf & Ht & _ & _).
  exists f. split; [exact Hf|].
  split; [now apply validFrequency_Some in Hf|].
  subst t. split; [congruence|].
  unfold parseOptions in H. rewrite Ha in H. rewrite <- Eo in H.
  destruct (buildTimeset f _ out) as [ts'|m]; [|discriminate].
  now injection H as ->.
Qed.

(** Two inputs that agree on their unrecognised keys, frequency, start,
    set-position elements and field-by-field output have the same
    result. *)
Lemma parseOptions_equiv (D1 D2 : Options) (now : Z)
  (options1 options2 : RawOptions) :
  let m1 := merged D1 options1 in
  let m2 := merged D2 options2 in
  invalidKeys options1 = invalidKeys options2 ->
  freq (easterOverride m1) = freq (easterOverride m2) ->
  startOf now m1 = startOf now m2 ->
  setposElements (bysetpos m1) = setposElements (bysetpos m2) ->
  (forall f t, canonical f t m1 = canonical f t m2) ->
  parseOptions D1 now options1 = parseOptions D2 now options2.
Proof.
  intros m1 m2 Hk Hf Hs Hp Hc.
  destruct (anchored D1 now options1) as [[[f t] opts1]|e] eqn:Ha.
  - pose proof (closed_form D1 now options1 f t opts1 Ha) as E1.
    pose proof Ha as Hr. apply anchored_Return in Hr.
    destruct Hr as (Hk1 & Hf1 & Ht1 & _ & Hl1).
    fold m1 in Hf1, Ht1, Hl1, E1.
    assert (Ha2 : anchored D2 now options2 =
                  Return (f, t, settled D2 now options2)).
    { apply anchored_Return. fold m2.
      rewrite <- Hk, <- Hf, <- Hs, <- Hp. repeat split; assumption. }
    pose proof (closed_form D2 now options2 f t _ Ha2) as E2.
    fold m2 in E2.
    unfold parseOptions. rewrite Ha, Ha2, E1, E2, Hc. reflexivity.
  - assert (Ha2 : anchored D2 now options2 = Throw e).
    { apply anchored_Throw in Ha. apply anchored_Throw.
      fold m1 in Ha. fold m2. rewrite <- Hk, <- Hf, <- Hp. exact Ha. }
    unfold parseOptions. now rewrite Ha, Ha2.
Qed.

(** ** Hour, minute and second constraints *)

Lemma normalizeTime_spec (f level start : Z) (v : js NumOrArr) :
  normalizeTime f level start v =
  if isPresent v || (f <? level) then val (Arr (timeList v start))
  else null.
Proof.
  unfold normalizeTime, timeList.
  destruct v as [| |[x|l]]; try reflexivity; simpl;
    destruct (f <? level); reflexivity.
Qed.

(** X5.  In a successful output each of the hour, minute and second
    constraints is the list of the supplied values when one is present
    in the merged options (a number as a one-element list); when absent
    it is the one-element list holding that field of the start instant
    if the frequency is coarser than HOURLY, MINUTELY or SECONDLY
    respectively, and [null] otherwise. *)
Theorem X5_time_defaults (D : Options) (now : Z) (options : RawOptions)
  (out : Options) (ts : option (list dateutil.Time)) :
  parseOptions D now options = Return (out, ts) ->
  let m := merged D options in
  let t := startOf now m in
  exists f,
    freq out = val f /\ dtstart out = val t /\
    byhour out =
      (if isPresent (byhour m) || (f <? RRule.HOURLY)
       then val (Arr (timeList (byhour m) (Date.getUTCHours t)))
       else null) /\
    byminute out =
      (if isPresent (byminute m) || (f <? RRule.MINUTELY)
       then val (Arr (timeList (byminute m) (Date.getUTCMinutes t)))
       else null) /\
    bysecond out =
      (if isPresent (bysecond m) || (f <? RRule.SECONDLY)
       then val (Arr (timeList (bysecond m) (Date.getUTCSeconds t)))
       else null).
Proof.
  intros H m t. apply parseOptions_canonical in H.
  destruct H as (f & _ & _ & -> & _). fold m. fold t.
  exists f. unfold canonical.
  cbn [freq dtstart byhour byminute bysecond].
  rewrite !normalizeTime_spec. repeat split.
Qed.

Lemma X5_time_defaults_witness :
  exists out ts,
    parseOptions defaults0 0 (startInput RRule.MINUTELY 951827696789) =
      Return (out, ts) /\
    byhour out = null /\ byminute out = null /\
    bysecond out = val (Arr [56]).
Proof.
  set (input := startInput RRule.MINUTELY 951827696789).
  destruct (parseOptions defaults0 0 input) as [[out ts]|m] eqn:E;
    [|vm_compute in E; discriminate].
  exists out, ts. split; [reflexivity|].
  destruct (X5_time_defaults defaults0 0 input out ts E)
    as (f & Ef & _ & Eh & Em & Es).
  assert (Ef' : freq out = val RRule.MINUTELY)
    by (vm_compute in E; now injection E as <- _).
  rewrite Ef' in Ef. injection Ef as <-.
  split; [exact Eh|]. split; [exact Em|exact Es].
Defined.

Lemma time_of_day (t : Z) :
  0 <= Date.getUTCHours t <= 23 /\
  0 <= Date.getUTCMinutes t <= 59 /\
  0 <= Date.getUTCSeconds t <= 59 /\
  (0 <= t ->
   0 <= millisecondModulo t <= 999 /\
   ((Date.getUTCHours t * 60 + Date.getUTCMinutes t) * 60 +
    Date.getUTCSeconds t) * 1000 + millisecondModulo t =
   t mod Date.msPerDay).
Proof.
  unfold Date.getUTCHours, Date.getUTCMinutes, Date.getUTCSeconds,
    Date.msPerDay.
  repeat split; try (Z.div_mod_to_equations; lia).
  - rewrite (millisecondModulo_nonneg t H).
    unfold Date.getUTCMilliseconds. Z.div_mod_to_equations. lia.
  - rewrite (millisecondModulo_nonneg t H).
    unfold Date.getUTCMilliseconds. Z.div_mod_to_equations. lia.
  - rewrite (millisecondModulo_nonneg t H).
    unfold Date.getUTCMilliseconds. Z.div_mod_to_equations. lia.
Qed.

(** X6.  When the frequency is coarser than HOURLY and the merged options
    hold no hour, minute or second constraint, the timeset is the single
    UTC time of day of the start instant, with hour 0..23, minute 0..59
    and second 0..59; for a start at or after the epoch its millisecond
    is 0..999 and the four fields add up to the start's offset into its
    UTC day. *)
Theorem X6_default_timeset (D : Options) (now : Z) (options : RawOptions)
  (out : Options) (ts : option (list dateutil.Time)) (f : Z) :
  parseOptions D now options = Return (out, ts) ->
  freq out = val f -> f < RRule.HOURLY ->
  isPresent (byhour (merged D options)) = false ->
  isPresent (byminute (merged D options)) = false ->
  isPresent (bysecond (merged D options)) = false ->
  let t := startOf now (merged D options) in
  let e := dateutil.mkTime (Date.getUTCHours t) (Date.getUTCMinutes t)
             (Date.getUTCSeconds t) (millisecondModulo t) in
  ts = Some [e] /\
  0 <= dateutil.hour e <= 23 /\ 0 <= dateutil.minute e <= 59 /\
  0 <= dateutil.second e <= 59 /\
  (0 <= t ->
   0 <= dateutil.millisecond e <= 999 /\
   ((dateutil.hour e * 60 + dateutil.minute e) * 60 + dateutil.second e)
     * 1000 + dateutil.millisecond e = t mod Date.msPerDay).
Proof.
  intros H Ef Hf Hh Hm Hs t e.
  apply parseOptions_canonical in H.
  destruct H as (f' & _ & _ & -> & Hb). fold t in Hb.
  cbn [freq canonical] in Ef. injection Ef as ->.
  split.
  - unfold buildTimeset in Hb.
    destruct (Z.geb_spec f RRule.HOURLY) as [Hge|_]; [lia|].
    unfold canonical in Hb. cbn [byhour byminute bysecond] in Hb.
    rewrite !normalizeTime_spec, Hh, Hm, Hs in Hb.
    unfold RRule.HOURLY, RRule.MINUTELY, RRule.SECONDLY in *.
    replace (f <? 4) with true in Hb by (symmetry; apply Z.ltb_lt; lia).
    replace (f <? 5) with true in Hb by (symmetry; apply Z.ltb_lt; lia).
    replace (f <? 6) with true in Hb by (symmetry; apply Z.ltb_lt; lia).
    cbn [orb] in Hb.
    destruct (byhour (merged D options)) as [| |?]; try discriminate;
      destruct (byminute (merged D options)) as [| |?]; try discriminate;
      destruct (bysecond (merged D options)) as [| |?]; try discriminate;
      cbn [timeList] in Hb; injection Hb as <-; reflexivity.
  - subst e. cbn [dateutil.hour dateutil.minute dateutil.second
                  dateutil.millisecond].
    destruct (time_of_day t) as (A & B & C & E).
    repeat split; try lia; now apply E.
Qed.

Lemma X6_default_timeset_witness :
  exists out,
    parseOptions defaults0 0 (startInput RRule.DAILY 951827696789) =
      Return (out, Some [dateutil.mkTime 12 34 56 789]) /\
    ((12 * 60 + 34) * 60 + 56) * 1000 + 789 =
      951827696789 mod Date.msPerDay.
Proof.
  set (input := startInput RRule.DAILY 951827696789).
  destruct (parseOptions defaults0 0 input) as [[out ts]|m] eqn:E;
    [|vm_compute in E; discriminate].
  assert (Ef : freq out = val RRule.DAILY)
    by (vm_compute in E; now injection E as <- _).
  destruct (X6_default_timeset defaults0 0 input out ts RRule.DAILY E Ef)
    as (Ets & _ & _ & _ & Hsum); try reflexivity.
  exists out. split.
  - rewrite Ets. reflexivity.
  - apply Hsum. vm_compute. discriminate.
Defined.

(** ** The size and the members of the timeset *)

Lemma crossProduct_In (hs mins ss : list Z) (ms : Z) (x : dateutil.Time) :
  In x (crossProduct hs mins ss ms) <->
  In (dateutil.hour x) hs /\ In (dateutil.minute x) mins /\
  In (dateutil.second x) ss /\ dateutil.millisecond x = ms.
Proof.
  unfold crossProduct. rewrite in_flat_map. split.
  - intros (h & Hh & Hx). apply in_flat_map in Hx.
    destruct Hx as (m & Hm & Hx). apply in_map_iff in Hx.
    destruct Hx as (s & <- & Hs). simpl. auto.
  - intros (Hh & Hm & Hs & Hz). exists (dateutil.hour x).
    split; [assumption|]. apply in_flat_map. exists (dateutil.minute x).
    split; [assumption|]. apply in_map_iff. exists (dateutil.second x).
    split; [|assumption]. destruct x; simpl in *. now subst.
Qed.

(** X7.  A produced timeset has exactly one entry for every combination
    of a position in the hour list, one in the minute list and one in the
    second list of the output, so repeated values are not merged; a time
    is in it exactly when its hour, minute and second occur in the
    three lists and its millisecond is the remainder taken from the
    start. *)
Theorem X7_timeset_members (D : Options) (now : Z) (options : RawOptions)
  (out : Options) (l : list dateutil.Time) :
  parseOptions D now options = Return (out, Some l) ->
  exists t,
    dtstart out = val t /\
    List.length l =
      (List.length (elements (byhour out)) *
       (List.length (elements (byminute out)) *
        List.length (elements (bysecond out))))%nat /\
    forall x,
      In x l <->
      In (dateutil.hour x) (elements (byhour out)) /\
      In (dateutil.minute x) (elements (byminute out)) /\
      In (dateutil.second x) (elements (bysecond out)) /\
      dateutil.millisecond x = millisecondModulo t.
Proof.
  intros H. pose proof H as Hi. apply parseOptions_inv in Hi.
  destruct Hi as (f & t & opts & Ha & ->).
  destruct (parseOptions_Return D now options f t opts Ha)
    as (ts & E & _ & Ed & _ & Hnone & Hsome).
  rewrite E in H. injection H as ->. exists t. split; [exact Ed|].
  destruct (Z.lt_ge_cases f RRule.HOURLY) as [Hlt|Hge];
    [|specialize (Hnone Hge); discriminate].
  destruct (Hsome Hlt) as (Eh & Em & Es & El). injection El as ->.
  rewrite Eh, Em, Es. cbn [elements]. split.
  - rewrite (Permutation_length (sort_Permutation _)).
    apply crossProduct_length.
  - intros x. rewrite <- crossProduct_In. split.
    + apply Permutation_in, sort_Permutation.
    + apply Permutation_in, Permutation_sym, sort_Permutation.
Qed.

Lemma X7_timeset_members_witness :
  exists out l,
    parseOptions defaults0 0 (hourInput RRule.DAILY (Arr [9; 9])) =
      Return (out, Some l) /\
    List.length l = 2%nat.
Proof.
  set (input := hourInput RRule.DAILY (Arr [9; 9])).
  destruct (parseOptions defaults0 0 input) as [[out [l|]]|m] eqn:E;
    try (vm_compute in E; discriminate).
  exists out, l. split; [reflexivity|].
  destruct (X7_timeset_members defaults0 0 input out l E) as (t & _ & El & _).
  rewrite El.
  assert (Eh : byhour out = val (Arr [9; 9]))
    by (vm_compute in E; now injection E as <- _).
  assert (Em : byminute out = val (Arr [34]))
    by (vm_compute in E; now injection E as <- _).
  assert (Es : bysecond out = val (Arr [56]))
    by (vm_compute in E; now injection E as <- _).
  rewrite Eh, Em, Es. reflexivity.
Defined.

(** ** The month-day buckets *)

Lemma monthdayAfter_cases (f t : Z) (m : Options) :
  (isPresent (bymonthday m) = true -> monthdayAfter f t m = bymonthday m) /\
  (monthdayAfter f t m = bymonthday m \/
   monthdayAfter f t m = val (Num (Date.getUTCDate t))).
Proof.
  unfold monthdayAfter. rewrite noPositional_spec. split.
  - intros ->. now rewrite !orb_true_r.
  - destruct (_ && _); auto.
Qed.

Lemma filter_sign_count (l : list Z) :
  (List.length (filter (fun x => (0 <? x)%Z) l) +
   List.length (filter (fun x => (x <? 0)%Z) l) +
   count_occ Z.eq_dec l 0%Z)%nat = List.length l.
Proof.
  induction l as [|x l IH]; [reflexivity|].
  cbn [filter count_occ List.length].
  destruct (Z.ltb_spec 0 x), (Z.ltb_spec x 0), (Z.eq_dec x 0);
    cbn [List.length]; lia.
Qed.

Lemma monthdayBuckets_signs (v : js NumOrArr) :
  Forall (fun x => 0 <= x) (fst (monthdayBuckets v)) /\
  Forall (fun x => x < 0) (snd (monthdayBuckets v)) /\
  (In 0 (fst (monthdayBuckets v)) -> v = val (Num 0)).
Proof.
  unfold monthdayBuckets. destruct v as [| |[x|l]]; cbn [fst snd].
  - repeat split; try constructor. contradiction.
  - repeat split; try constructor. contradiction.
  - destruct (Z.ltb_spec x 0); cbn [fst snd]; repeat split;
      repeat constructor; try lia; try contradiction.
    intros [->|[]]. reflexivity.
  - repeat split.
    + apply Forall_forall. intros x Hx. apply filter_In in Hx.
      destruct Hx as [_ Hx]. apply Z.ltb_lt in Hx. lia.
    + apply Forall_forall. intros x Hx. apply filter_In in Hx.
      destruct Hx as [_ Hx]. now apply Z.ltb_lt in Hx.
    + intros Hx. apply filter_In in Hx. destruct Hx as [_ Hx].
      discriminate.
Qed.

(** X8.  In every successful output both month-day buckets are lists,
    never [null]: the positive one holds no negative number and the
    negative one only negative numbers, and a 0 reaches the positive one
    only when the merged constraint is the bare number 0.  For a merged
    constraint that is a list the two buckets and its zeros account for
    every element. *)
Theorem X8_month_day_buckets (D : Options) (now : Z) (options : RawOptions)
  (out : Options) (ts : option (list dateutil.Time)) :
  parseOptions D now options = Return (out, ts) ->
  exists p n,
    bymonthday out = val (Arr p) /\ bynmonthday out = val n /\
    Forall (fun x => 0 <= x) p /\ Forall (fun x => x < 0) n /\
    (In 0 p -> bymonthday (merged D options) = val (Num 0)) /\
    (forall l,
        bymonthday (merged D options) = val (Arr l) ->
        (List.length p + List.length n + count_occ Z.eq_dec l 0%Z)%nat =
          List.length l).
Proof.
  intros H. apply parseOptions_canonical in H.
  destruct H as (f & _ & _ & -> & _).
  set (m := merged D options). set (t := startOf now m).
  exists (fst (monthdayBuckets (monthdayAfter f t m))),
         (snd (monthdayBuckets (monthdayAfter f t m))).
  destruct (monthdayBuckets_signs (monthdayAfter f t m)) as (Hp & Hn & Hz).
  destruct (monthdayAfter_cases f t m) as (Hs & Hc).
  repeat split; try assumption.
  - intros H0. specialize (Hz H0). destruct Hc as [Hc|Hc].
    + now rewrite <- Hc.
    + rewrite Hc in Hz. injection Hz as Hd.
      pose proof (getUTCDate_range t). lia.
  - intros l El. rewrite Hs by now rewrite El. rewrite El.
    cbn [monthdayBuckets fst snd]. apply filter_sign_count.
Qed.

Lemma X8_month_day_buckets_witness :
  exists out ts p n,
    parseOptions defaults0 0
      (monthdayInput RRule.MONTHLY (Arr [0; 15; -1; 0; 31])) =
      Return (out, ts) /\
    bymonthday out = val (Arr p) /\ bynmonthday out = val n /\
    Forall (fun x => 0 <= x) p /\ Forall (fun x => x < 0) n /\
    (List.length p + List.length n + 2)%nat = 5%nat.
Proof.
  set (input := monthdayInput RRule.MONTHLY (Arr [0; 15; -1; 0; 31])).
  destruct (parseOptions defaults0 0 input) as [[out ts]|m] eqn:E;
    [|vm_compute in E; discriminate].
  destruct (X8_month_day_buckets defaults0 0 input out ts E)
    as (p & n & Ep & En & Hp & Hn & _ & Hl).
  exists out, ts, p, n. split; [reflexivity|].
  split; [exact Ep|]. split; [exact En|]. split; [exact Hp|].
  split; [exact Hn|]. exact (Hl [0; 15; -1; 0; 31] eq_refl).
Defined.

(** ** The weekday buckets *)

Lemma classifyWeekday_inr (f : Z) (w : Weekday.t) (p : list Z) :
  classifyWeekday f w = inr p -> ordinalEntry p /\ f <= RRule.MONTHLY.
Proof.
  unfold classifyWeekday, ordinalEntry.
  destruct (Weekday.n w) as [k|]; [|discriminate].
  destruct (Z.eqb_spec k 0) as [->|Hk]; [discriminate|].
  destruct (Z.gtb_spec f RRule.MONTHLY) as [Hf|Hf]; [discriminate|].
  cbn [orb]. intros E. injection E as <-. split; [|lia].
  now exists (Weekday.weekday w), k.
Qed.

Lemma splitWeekday_acc_inv (f : Z) (l : list ByWeekday) (p : list Z)
  (q : list (list Z)) :
  let s :=
    fold_left
      (fun acc wday =>
         match wday with
         | WdNum x => (fst acc ++ [x], snd acc)
         | WdObj wd =>
             match classifyWeekday f wd with
             | inl c => (fst acc ++ [c], snd acc)
             | inr r => (fst acc, snd acc ++ [r])
             end
         end)
      l (p, q) in
  (List.length (fst s) + List.length (snd s))%nat =
    (List.length p + List.length q + List.length l)%nat /\
  (Forall ordinalEntry q -> Forall ordinalEntry (snd s)) /\
  (RRule.MONTHLY < f -> q = [] -> snd s = []).
Proof.
  revert p q. induction l as [|x l IH]; intros p q; cbn [fold_left].
  - cbn [fst snd List.length]. repeat split; auto; lia.
  - destruct x as [c|w].
    + specialize (IH (p ++ [c]) q). cbv zeta in IH. cbn [fst snd].
      destruct IH as (IL & IF & IN). rewrite length_app in IL.
      cbn [List.length] in *. repeat split; auto; lia.
    + destruct (classifyWeekday f w) as [c|r] eqn:E; cbn [fst snd].
      * specialize (IH (p ++ [c]) q). cbv zeta in IH.
        destruct IH as (IL & IF & IN). rewrite length_app in IL.
        cbn [List.length] in *. repeat split; auto; lia.
      * apply classifyWeekday_inr in E. destruct E as [Er Ef].
        specialize (IH p (q ++ [r])). cbv zeta in IH.
        destruct IH as (IL & IF & IN). rewrite length_app in IL.
        cbn [List.length] in *. repeat split.
        -- lia.
        -- intros Hq. apply IF. apply Forall_app. split; [assumption|].
           now constructor.
        -- intros Hf. lia.
Qed.

Lemma weekdayOut_inv (f : Z) (v : js ByWeekdayField) :
  let b := weekdayOut f v in
  Forall bareCode (codes (fst b)) /\
  fst b <> val (BwArr []) /\
  (isPresent v = true ->
   match fst b with
   | val (BwNum _) | val (BwObj _) => False
   | _ => True
   end) /\
  Forall ordinalEntry (pairs (snd b)) /\
  snd b <> val [] /\ snd b <> undefined /\
  (RRule.MONTHLY < f -> snd b = null) /\
  (forall l, v = val (BwArr l) ->
             (List.length (codes (fst b)) + List.length (pairs (snd b)))%nat =
               List.length l).
Proof.
  unfold weekdayOut. destruct v as [| |[c|w|l]]; cbv zeta.
  - cbn. repeat split; try constructor; try discriminate.
  - cbn. repeat split; try constructor; try discriminate.
  - cbn. repeat split; try constructor; try discriminate; simpl; auto.
  - destruct (classifyWeekday f w) as [c|r] eqn:E.
    + cbn. repeat split; try constructor; try discriminate; simpl; auto.
    + apply classifyWeekday_inr in E. destruct E as [Er Ef].
      cbn. repeat split; try constructor; try discriminate; simpl; auto.
      intros Hf. lia.
  - destruct (splitWeekday_acc_inv f l [] []) as (IL & IF & IN).
    cbv zeta in IL, IF, IN. fold (splitWeekday f l) in IL, IF, IN.
    cbn [List.length] in IL.
    destruct (splitWeekday f l) as [p q]. cbn [fst snd] in *.
    assert (Hc : codes (orNull p (plainCodes p)) = map WdNum p)
      by (destruct p; reflexivity).
    assert (Hq : pairs (orNull q (val q)) = q) by (destruct q; reflexivity).
    rewrite Hc, Hq. repeat split.
    + apply Forall_forall. intros x Hx. apply in_map_iff in Hx.
      destruct Hx as (c & <- & _). exact I.
    + destruct p; discriminate.
    + intros _. destruct p; exact I.
    + apply IF. constructor.
    + destruct q; discriminate.
    + destruct q; discriminate.
    + intros Hf. rewrite (IN Hf eq_refl). reflexivity.
    + intros l' El. injection El as <-. rewrite length_map. lia.
Qed.

Lemma weekdayAfter_cases (f t : Z) (m : Options) :
  (notNull (byweekday m) = true -> weekdayAfter f t m = byweekday m) /\
  (weekdayAfter f t m = byweekday m \/
   weekdayAfter f t m = val (BwArr [WdNum (dateutil.getWeekday t)])).
Proof.
  unfold weekdayAfter. rewrite noPositional_spec. split.
  - intros ->. now rewrite !orb_true_r.
  - destruct (_ && _); auto.
Qed.

(** X9.  In every successful output the plain weekday bucket is absent or
    a non-empty list of bare codes and the ordinal bucket is [null] or a
    non-empty list of [[code, n]] entries with [n] not 0; under a
    frequency finer than MONTHLY the ordinal bucket is always [null].
    Every token of a merged weekday list lands in exactly one of the two
    buckets: none is dropped and none is counted twice. *)
Theorem X9_weekday_buckets (D : Options) (now : Z) (options : RawOptions)
  (out : Options) (ts : option (list dateutil.Time)) (f : Z) :
  parseOptions D now options = Return (out, ts) ->
  freq out = val f ->
  Forall bareCode (codes (byweekday out)) /\
  byweekday out <> val (BwArr []) /\
  (forall x, byweekday out <> val (BwNum x)) /\
  (forall w, byweekday out <> val (BwObj w)) /\
  Forall ordinalEntry (pairs (bynweekday out)) /\
  bynweekday out <> val [] /\ bynweekday out <> undefined /\
  (RRule.MONTHLY < f -> bynweekday out = null) /\
  (forall l,
      byweekday (merged D options) = val (BwArr l) ->
      (List.length (codes (byweekday out)) +
       List.length (pairs (bynweekday out)))%nat = List.length l).
Proof.
  intros H Ef. apply parseOptions_canonical in H.
  destruct H as (f' & _ & _ & -> & _).
  cbn [freq canonical] in Ef. injection Ef as ->.
  set (m := merged D options). set (t := startOf now m).
  unfold canonical. cbn [byweekday bynweekday].
  destruct (weekdayOut_inv f (weekdayAfter f t m))
    as (H1 & H2 & H3 & H4 & H5 & H6 & H7 & H8).
  cbv zeta in *.
  destruct (weekdayAfter_cases f t m) as (Hs & Hc).
  assert (Hsc : match fst (weekdayOut f (weekdayAfter f t m)) with
                | val (BwNum _) | val (BwObj _) => False
                | _ => True
                end).
  { destruct (weekdayAfter f t m) as [| |v] eqn:Ev.
    - exact I.
    - exact I.
    - now apply H3. }
  repeat split; try assumption.
  - intros x E. rewrite E in Hsc. exact Hsc.
  - intros w E. rewrite E in Hsc. exact Hsc.
  - intros l El. apply H8. rewrite Hs by now rewrite El. exact El.
Qed.

Lemma X9_weekday_buckets_witness :
  exists out ts,
    parseOptions defaults0 0
      (weekdayInput RRule.DAILY
         (BwArr [WdObj secondTuesday; WdNum 6])) = Return (out, ts) /\
    bynweekday out = null /\
    List.length (codes (byweekday out)) = 2%nat.
Proof.
  set (input := weekdayInput RRule.DAILY
                  (BwArr [WdObj secondTuesday; WdNum 6])).
  destruct (parseOptions defaults0 0 input) as [[out ts]|m] eqn:E;
    [|vm_compute in E; discriminate].
  exists out, ts. split; [reflexivity|].
  assert (Ef : freq out = val RRule.DAILY)
    by (vm_compute in E; now injection E as <- _).
  destruct (X9_weekday_buckets defaults0 0 input out ts RRule.DAILY E Ef)
    as (_ & _ & _ & _ & _ & _ & _ & Hn & Hl).
  assert (En : bynweekday out = null)
    by (apply Hn; unfold RRule.MONTHLY, RRule.DAILY; lia).
  split; [exact En|].
  specialize (Hl [WdObj secondTuesday; WdNum 6] eq_refl).
  rewrite En in Hl. cbn [pairs List.length] in Hl.
  rewrite Nat.add_0_r in Hl. exact Hl.
Defined.

(** ** Inputs with the same result *)

Lemma parseOptions_fields_equiv (D : Options) (now : Z)
  (options : RawOptions) (o1 o2 : Options) :
  let m1 := merged D (withFields options o1) in
  let m2 := merged D (withFields options o2) in
  freq (easterOverride m1) = freq (easterOverride m2) ->
  startOf now m1 = startOf now m2 ->
  setposElements (bysetpos m1) = setposElements (bysetpos m2) ->
  (forall f t, canonical f t m1 = canonical f t m2) ->
  parseOptions D now (withFields options o1) =
  parseOptions D now (withFields options o2).
Proof.
  intros m1 m2 Hf Hs Hp Hc.
  now apply parseOptions_equiv.
Qed.

Lemma easterOverride_freq (o : Options) :
  freq (easterOverride o) =
  if isPresent (byeaster o) then val RRule.YEARLY else freq o.
Proof. unfold easterOverride. now destruct (isPresent (byeaster o)). Qed.

Ltac merged_fields :=
  unfold merged, mergeDefaults, copyOptions, withFields;
  cbn [keys fields freq dtstart interval wkst count until tzid bysetpos
       bymonth bymonthday bynmonthday byyearday byweekno byweekday
       bynweekday byhour byminute bysecond byeaster
       set_freq set_dtstart set_wkst set_bysetpos set_bymonth
       set_bymonthday set_bynmonthday set_byyearday set_byweekno
       set_byweekday set_bynweekday set_byhour set_byminute set_bysecond].

Ltac canonical_fields :=
  unfold canonical, monthAfter, monthdayAfter, weekdayAfter;
  rewrite ?noPositional_spec, ?easterOverride_freq;
  unfold startOf;
  cbn [freq dtstart interval wkst count until tzid bysetpos
       bymonth bymonthday bynmonthday byyearday byweekno byweekday
       bynweekday byhour byminute bysecond byeaster].

(** X10.  The two output buckets [bynmonthday] and [bynweekday] are
    recognised keys of the input, but whatever the caller puts in them is
    ignored: the result is the one of the same input with any other
    values there. *)
Theorem X10_buckets_ignored (D : Options) (now : Z) (options : RawOptions)
  (a a' : js (list Z)) (b b' : js (list (list Z))) :
  parseOptions D now
    (withFields options
       (set_bynmonthday a (set_bynweekday b (fields options)))) =
  parseOptions D now
    (withFields options
       (set_bynmonthday a' (set_bynweekday b' (fields options)))).
Proof.
  apply parseOptions_fields_equiv; cbv zeta; try intros f t;
    canonical_fields; merged_fields; reflexivity.
Qed.

Ltac field_equiv ks key :=
  apply parseOptions_fields_equiv; cbv zeta; try intros f t;
  canonical_fields; merged_fields; unfold dflt, own;
  destruct (contains ks key); cbn [negb isPresent notEmpty notNull];
  rewrite ?orb_true_r; cbn [orb negb andb]; try reflexivity.

Lemma monthdayBuckets_singleton (x : Z) :
  x <> 0 -> monthdayBuckets (val (Num x)) = monthdayBuckets (val (Arr [x])).
Proof.
  intros Hx. unfold monthdayBuckets. cbn [filter].
  destruct (Z.ltb_spec x 0), (Z.ltb_spec 0 x); try reflexivity; lia.
Qed.

Lemma weekdayOut_singleton (f : Z) :
  (forall c, weekdayOut f (val (BwNum c)) =
             weekdayOut f (val (BwArr [WdNum c]))) /\
  (forall w, weekdayOut f (val (BwObj w)) =
             weekdayOut f (val (BwArr [WdObj w]))).
Proof.
  split; [reflexivity|].
  intros w. unfold weekdayOut, splitWeekday. cbn [fold_left].
  destruct (classifyWeekday f w); reflexivity.
Qed.

(** X11.  For the set-position, year-day, week-number, hour, minute and
    second constraints a bare number and the one-element list holding it
    give the same result, options, timeset and errors alike; so do they
    for the month and month-day constraints when the number is not 0;
    and so do a single weekday token and the one-element list holding
    it. *)
Theorem X11_scalar_as_list :
  (forall set,
      In set scalarFields ->
      forall (D : Options) (now : Z) (options : RawOptions) (x : Z),
        parseOptions D now
          (withFields options (set (val (Num x)) (fields options))) =
        parseOptions D now
          (withFields options (set (val (Arr [x])) (fields options)))) /\
  (forall (D : Options) (now : Z) (options : RawOptions) (x : Z),
      x <> 0 ->
      parseOptions D now
        (withFields options (set_bymonth (val (Num x)) (fields options))) =
      parseOptions D now
        (withFields options (set_bymonth (val (Arr [x])) (fields options)))
      /\
      parseOptions D now
        (withFields options
           (set_bymonthday (val (Num x)) (fields options))) =
      parseOptions D now
        (withFields options
           (set_bymonthday (val (Arr [x])) (fields options)))) /\
  (forall (D : Options) (now : Z) (options : RawOptions) (x : ByWeekday),
      parseOptions D now
        (withFields options
           (set_byweekday
              (val (match x with
                    | WdNum c => BwNum c
                    | WdObj w => BwObj w
                    end))
              (fields options))) =
      parseOptions D now
        (withFields options
           (set_byweekday (val (BwArr [x])) (fields options)))).
Proof.
  split; [|split].
  - intros set Hin D now options x. unfold scalarFields in Hin.
    cbn [In] in Hin.
    destruct Hin as [<-|[<-|[<-|[<-|[<-|[<-|[]]]]]]].
    + field_equiv (keys options) "bysetpos".
    + field_equiv (keys options) "byyearday".
    + field_equiv (keys options) "byweekno".
    + field_equiv (keys options) "byhour".
    + field_equiv (keys options) "byminute".
    + field_equiv (keys options) "bysecond".
  - intros D now options x Hx. split.
    + field_equiv (keys options) "bymonth".
      cbn [Boolean].
      replace (x =? 0) with false by (symmetry; now apply Z.eqb_neq).
      cbn [negb]. rewrite !andb_false_r. reflexivity.
    + field_equiv (keys options) "bymonthday".
      now rewrite (monthdayBuckets_singleton x Hx).
  - intros D now options x.
    field_equiv (keys options) "byweekday".
    destruct x as [c|w].
    + now rewrite (proj1 (weekdayOut_singleton f) c).
    + now rewrite (proj2 (weekdayOut_singleton f) w).
Qed.

Lemma X11_scalar_as_list_witness :
  In set_byhour scalarFields /\
  parseOptions defaults0 0 (hourInput RRule.DAILY (Num 9)) =
  parseOptions defaults0 0 (hourInput RRule.DAILY (Arr [9])) /\
  parseOptions defaults0 0 (monthdayInput RRule.MONTHLY (Num (-3))) =
  parseOptions defaults0 0 (monthdayInput RRule.MONTHLY (Arr [-3])).
Proof.
  assert (Hin : In set_byhour scalarFields).
  { unfold scalarFields. cbn [In]. auto 10. }
  split; [exact Hin|]. split.
  - exact (proj1 X11_scalar_as_list set_byhour Hin defaults0 0
             (hourInput RRule.DAILY (Num 9)) 9).
  - assert (Hx : -3 <> 0) by discriminate.
    exact (proj2 (proj1 (proj2 X11_scalar_as_list) defaults0 0
                    (monthdayInput RRule.MONTHLY (Num (-3))) (-3) Hx)).
Defined.

(** ** Values taken from the start instant *)

Lemma getWeekday_range (t : Z) : 0 <= dateutil.getWeekday t <= 6.
Proof.
  unfold dateutil.getWeekday.
  assert (H : 0 <= Date.getUTCDay t < 7)
    by (unfold Date.getUTCDay; apply Z.mod_pos_bound; lia).
  assert (Hc : Date.getUTCDay t = 0 \/ Date.getUTCDay t = 1 \/
               Date.getUTCDay t = 2 \/ Date.getUTCDay t = 3 \/
               Date.getUTCDay t = 4 \/ Date.getUTCDay t = 5 \/
               Date.getUTCDay t = 6) by lia.
  destruct Hc as [->|[->|[->|[->|[->|[->| ->]]]]]];
    split; apply Z.leb_le; reflexivity.
Qed.

(** X12.  When the condition of lines 64-74 holds, what is derived from
    the start instant is a valid value: under YEARLY and MONTHLY the
    positive month-day bucket is the start's day of the month, 1..31, and
    the negative bucket is empty; under YEARLY with a falsy month
    constraint the month is the start's month counted from 1, 1..12;
    under WEEKLY the plain weekday bucket is the start's weekday code,
    0..6, and the ordinal bucket is [null]. *)
Theorem X12_derived_values (D : Options) (now : Z) (options : RawOptions)
  (out : Options) (ts : option (list dateutil.Time)) (f : Z) :
  parseOptions D now options = Return (out, ts) ->
  freq out = val f ->
  noPositional (merged D options) = true ->
  let m := merged D options in
  let t := startOf now m in
  (f = RRule.YEARLY \/ f = RRule.MONTHLY ->
   bymonthday out = val (Arr [Date.getUTCDate t]) /\
   bynmonthday out = val [] /\ 1 <= Date.getUTCDate t <= 31) /\
  (f = RRule.YEARLY -> Boolean (bymonth m) = false ->
   bymonth out = val (Arr [Date.getUTCMonth t + 1]) /\
   1 <= Date.getUTCMonth t + 1 <= 12) /\
  (f = RRule.WEEKLY ->
   byweekday out = val (BwArr [WdNum (dateutil.getWeekday t)]) /\
   bynweekday out = null /\ 0 <= dateutil.getWeekday t <= 6).
Proof.
  intros H Ef Hn m t. subst m t. apply parseOptions_canonical in H.
  destruct H as (f' & _ & _ & -> & _).
  cbn [freq canonical] in Ef. injection Ef as ->.
  unfold canonical.
  cbn [bymonth bymonthday bynmonthday byweekday bynweekday].
  unfold monthAfter, monthdayAfter, weekdayAfter. rewrite Hn.
  cbn [andb]. split; [|split].
  - intros Hf.
    assert (E : (f =? RRule.YEARLY) || (f =? RRule.MONTHLY) = true)
      by (destruct Hf as [-> | ->]; reflexivity).
    rewrite E, monthdayBuckets_date.
    repeat split; apply getUTCDate_range.
  - intros -> Hb. rewrite Hb, Z.eqb_refl. cbn [andb negb toArray].
    split; [reflexivity|].
    pose proof (getUTCMonth_range (startOf now (merged D options))). lia.
  - intros ->. rewrite Z.eqb_refl.
    cbn [weekdayOut splitWeekday fold_left fst snd app orNull plainCodes map].
    repeat split; apply getWeekday_range.
Qed.

Lemma X12_derived_values_witness :
  exists out ts,
    parseOptions defaults0 0 (startInput RRule.YEARLY 951827696789) =
      Return (out, ts) /\
    bymonth out = val (Arr [2]) /\ bymonthday out = val (Arr [29]).
Proof.
  set (input := startInput RRule.YEARLY 951827696789).
  destruct (parseOptions defaults0 0 input) as [[out ts]|m] eqn:E;
    [|vm_compute in E; discriminate].
  exists out, ts. split; [reflexivity|].
  assert (Ef : freq out = val RRule.YEARLY)
    by (vm_compute in E; now injection E as <- _).
  assert (Hn : noPositional (merged defaults0 input) = true)
    by (vm_compute; reflexivity).
  destruct (X12_derived_values defaults0 0 input out ts RRule.YEARLY E Ef Hn)
    as (Hd & Hm & _).
  split.
  - assert (Hb : Boolean (bymonth (merged defaults0 input)) = false)
      by (vm_compute; reflexivity).
    exact (proj1 (Hm eq_refl Hb)).
  - exact (proj1 (Hd (or_introl eq_refl))).
Defined.

(** ** The start instant *)

(** X13.  The start instant of a successful output is the merged one when
    that holds a date; otherwise it is the clock reading cut down to a
    whole second: at most the reading, less than a second before it, with
    millisecond component 0, and then every entry of a produced timeset
    has millisecond 0. *)
Theorem X13_start_instant (D : Options) (now : Z) (options : RawOptions)
  (out : Options) (ts : option (list dateutil.Time)) :
  parseOptions D now options = Return (out, ts) ->
  (forall t, dtstart (merged D options) = val t -> dtstart out = val t) /\
  (isPresent (dtstart (merged D options)) = false ->
   exists d,
     dtstart out = val d /\ now - 1000 < d <= now /\
     Date.getUTCMilliseconds d = 0 /\
     forall l, ts = Some l ->
               Forall (fun x => dateutil.millisecond x = 0) l).
Proof.
  intros H. pose proof H as Hc. apply parseOptions_canonical in Hc.
  destruct Hc as (f & _ & _ & Eo & _).
  assert (Ed : dtstart out = val (startOf now (merged D options)))
    by (rewrite Eo; reflexivity).
  split.
  - intros t Et. rewrite Ed. unfold startOf. now rewrite Et.
  - intros Hp. exists (Date.setMilliseconds0 now).
    assert (Es : startOf now (merged D options) = Date.setMilliseconds0 now).
    { unfold startOf. destruct (dtstart (merged D options));
        [reflexivity..|discriminate]. }
    rewrite Es in Ed. split; [exact Ed|].
    destruct (millisecondModulo_default now) as [Hm Hu].
    split; [|split; [exact Hu|]].
    + unfold Date.setMilliseconds0.
      pose proof (Z.mod_pos_bound now 1000). lia.
    + intros l ->. destruct (timeset_millisecond D now options out l H)
        as (t & Et & Hl).
      rewrite Ed in Et. injection Et as <-. now rewrite Hm in Hl.
Qed.

Lemma X13_start_instant_witness :
  exists out ts,
    parseOptions defaults0 1700000000123
      {| keys := ["freq"]; fields := set_freq (val RRule.DAILY) blank |} =
      Return (out, ts) /\
    exists d, dtstart out = val d /\ 1700000000123 - 1000 < d <= 1700000000123.
Proof.
  set (input := {| keys := ["freq"];
                   fields := set_freq (val RRule.DAILY) blank |}).
  destruct (parseOptions defaults0 1700000000123 input)
    as [[out ts]|m] eqn:E; [|vm_compute in E; discriminate].
  exists out, ts. split; [reflexivity|].
  destruct (proj2 (X13_start_instant defaults0 1700000000123 input out ts E)
              eq_refl) as (d & Ed & Hd & _).
  exists d. split; [exact Ed|exact Hd].
Defined.
